(** * ipinfo.handler: the IPinfo client handler

    A shallow embedding of [src/ipinfo/handler.py] (class [Handler]) and of
    the collaborators it calls, with the properties of its specification.

    Python objects are modelled as follows.
    - A JSON value as decoded by [json.loads] is a [value]; a Python [dict]
      with string keys is a [gmap string value].
    - Every decoded response lives in a cell of the [heap]; the cache, the
      variable [raw_details] and the returned [Details] object hold a
      reference ([ref]) to that cell, as in Python, where all three name one
      and the same dictionary.
    - A method of [Handler] is a computation in the monad [M]: it threads
      the [world] (handler, heap, clock, requests sent) and either returns or
      raises an [exn]; what was written before an exception stays written. *)

From Stdlib Require Import Floats.SpecFloat Strings.Ascii.
From stdpp Require Import base option list strings gmap pretty.

Set Warnings "-register-all".

(** ** Python values *)

Inductive value : Type :=
  | VNone
  | VBool (b : bool)
  | VInt (z : Z)
  | VFloat (f : spec_float)
  | VStr (s : string)
  | VList (l : list value)
  | VDict (d : gmap string value).

(** [bool(v)]: the truth value Python gives [v] in an [if]. *)
Definition truthy (v : value) : bool :=
  match v with
  | VNone => false
  | VBool b => b
  | VInt z => negb (z =? 0)%Z
  | VFloat (S754_zero _) => false
  | VFloat _ => true
  | VStr s => negb (String.eqb s "")
  | VList l => match l with [] => false | _ => true end
  | VDict d => match map_to_list d with [] => false | _ => true end
  end.

(** Lists and dictionaries have no hash; every other JSON value has one. *)
Definition hashable (v : value) : bool :=
  match v with
  | VList _ | VDict _ => false
  | _ => true
  end.

(** ** Exceptions *)

(** The HTTP response object of [requests]: its status code and its body. *)
Record response := Response { status_code : Z; text : string }.

Inductive exn : Type :=
  | RequestQuotaExceededError
  | HTTPError (r : response)        (* requests.exceptions.HTTPError(response=r) *)
  | TransportError (name : string)  (* whatever requests.get itself raised *)
  | JSONDecodeError                 (* a ValueError, from json.loads *)
  | IOError                         (* open() of a file that cannot be opened *)
  | KeyError
  | AttributeError
  | TypeError.

(** The name of the class of an exception. *)
Definition exn_name (e : exn) : string :=
  match e with
  | RequestQuotaExceededError => "RequestQuotaExceededError"
  | HTTPError _ => "HTTPError"
  | TransportError n => n
  | JSONDecodeError => "JSONDecodeError"
  | IOError => "IOError"
  | KeyError => "KeyError"
  | AttributeError => "AttributeError"
  | TypeError => "TypeError"
  end.

(** A computation without state that returns or raises. *)
Definition result (A : Type) : Type := exn + A.

(** ** Strings *)

(** [s.split(",")] for the one-character separator [sep]: the pieces
    between the separators, of which there is always at least one. *)
Fixpoint split (sep : Ascii.ascii) (s : string) : list string :=
  match s with
  | EmptyString => [EmptyString]
  | String c s' =>
      if Ascii.eqb c sep then EmptyString :: split sep s'
      else match split sep s' with
           | h :: t => String c h :: t
           | [] => [String c EmptyString]
           end
  end.

Definition comma : Ascii.ascii := ","%char.

(** [sep] does not occur in [s]. *)
Fixpoint sep_free (sep : Ascii.ascii) (s : string) : bool :=
  match s with
  | EmptyString => true
  | String c s' => negb (Ascii.eqb c sep) && sep_free sep s'
  end.

(** The string [s] is [lat], one separator and [lon], where neither part
    is empty or holds a separator: exactly one comma between two non-empty
    substrings. *)
Definition lat_comma_lon (s lat lon : string) : Prop :=
  s = lat +:+ String comma lon ∧
  sep_free comma lat = true ∧ sep_free comma lon = true ∧
  lat ≠ "" ∧ lon ≠ "".

(** ** Dictionaries *)

(** [d.get(k)] on a dictionary whose keys are all strings: hashing the key
    comes first and raises for a list or a dictionary; a key that is not a
    string equals none of the keys; a missing key gives [None]. *)
Definition dict_get (d : gmap string value) (k : value) : result value :=
  match k with
  | VStr s => inr (default VNone (d !! s))
  | _ => if hashable k then inr VNone else inl TypeError
  end.

(** [o.get(k)] on any object: only a dictionary has the method. *)
Definition obj_get (o : value) (k : value) : result value :=
  match o with
  | VDict d => dict_get d k
  | _ => inl AttributeError
  end.

(** ** [Handler._read_coords] *)

Definition _read_coords (location : value) : result (value * value) :=
  if truthy location then
    match location with
    | VStr s =>
        match split comma s with
        | [c0; c1] =>
            if truthy (VStr c0) && truthy (VStr c1)
            then inr (VStr c0, VStr c1)
            else inr (VNone, VNone)
        | _ => inr (VNone, VNone)
        end
    | _ => inl AttributeError   (* no method split *)
    end
  else inr (VNone, VNone).

(** ** The cache *)

(** A lookup key: the IP address given to [getDetails], or [None]. *)
Abbreviation LookupKey := (option string).

(** A reference to a heap cell. *)
Abbreviation ref := nat.

Module Cache.

(** Modelled from the spec: [ipinfo/cache/default.py] (class
    [DefaultCache]) is not among the sources. The specification describes
    it as a bounded-size, time-expiring store with membership test, get
    and set: an entry older than the configured TTL is treated as absent,
    and on insert at capacity the least recently used entry is evicted.
    The entries are kept most recently used first, each with the time of
    its insertion; the time is a count of clock ticks. As any mapping in
    memory, the cache stores the reference it is given, not a copy of the
    object. *)
Record entry := Entry { e_key : LookupKey; e_val : ref; e_stamp : N }.

Record DefaultCache := Make {
  maxsize : N;
  ttl : N;
  entries : list entry
}.

Definition new (maxsize ttl : N) : DefaultCache := Make maxsize ttl [].

(** The entry is not older than the TTL at time [now]. *)
Definition live (c : DefaultCache) (now : N) (e : entry) : bool :=
  bool_decide (now ≤ e_stamp e + ttl c)%N.

Definition has_key (k : LookupKey) (e : entry) : bool :=
  bool_decide (e_key e = k).

Definition holds (c : DefaultCache) (now : N) (k : LookupKey) (e : entry) : bool :=
  has_key k e && live c now e.

(** The entry the cache has for [k] at time [now], if any. *)
Definition lookup (c : DefaultCache) (now : N) (k : LookupKey) : option entry :=
  List.find (holds c now k) (entries c).

(** [k in cache] *)
Definition contains (c : DefaultCache) (now : N) (k : LookupKey) : bool :=
  match lookup c now k with Some _ => true | None => false end.

(** The entry [e] of [k] becomes the most recently used one. *)
Definition touch (c : DefaultCache) (k : LookupKey) (e : entry) : DefaultCache :=
  Make (maxsize c) (ttl c) (e :: filter (λ e', negb (has_key k e')) (entries c)).

(** [cache[k]]: the value, and the cache with the entry now the most
    recently used one. *)
Definition getitem (c : DefaultCache) (now : N) (k : LookupKey)
  : result (ref * DefaultCache) :=
  match lookup c now k with
  | Some e => inr (e_val e, touch c k e)
  | None => inl KeyError
  end.

(** [cache[k] = v]: expired entries and the old entry of [k] go, the new
    entry becomes the most recently used one, and the least recently used
    entries beyond the capacity are evicted. *)
Definition setitem (c : DefaultCache) (now : N) (k : LookupKey) (v : ref)
  : DefaultCache :=
  Make (maxsize c) (ttl c)
       (take (N.to_nat (maxsize c))
             (Entry k v now ::
              filter (λ e, negb (has_key k e) && live c now e) (entries c))).

(** The reference the cache maps [k] to at time [now]. *)
Definition value_of (c : DefaultCache) (now : N) (k : LookupKey) : option ref :=
  e_val <$> lookup c now k.

End Cache.

(** ** The handler and the world it runs in *)

(** An outbound request: [requests.get(url, headers=..., **options)]. *)
Record request := Request {
  url : string;
  headers : gmap string string;
  options : gmap string value
}.

(** The attributes of a [Handler] object. *)
Record Handler := MkHandler {
  access_token : option string;
  countries : value;
  request_options : gmap string value;
  cache : Cache.DefaultCache
}.

(** The state a method of the handler runs in: the handler itself, the heap
    of decoded responses, the clock of the cache, and the requests sent so
    far (oldest first): the calls of [requests.get] that bound their
    arguments. *)
Record world := World {
  self : Handler;
  heap : list value;
  clock : N;
  sent : list request
}.

(** What the network does with a request: how many clock ticks it takes,
    and the response it delivers or the exception [requests.get] raises. *)
Definition network : Type := request → N * result response.

(** Modelled from the spec: [ipinfo/details.py] (class [Details]) is not
    among the sources. The specification describes the finalized record as
    a read-only view, by attribute and by key, of the raw mapping with the
    derived fields: the object wraps the dictionary it is given. *)
Record Details := MkDetails { details : ref }.

(** ** The monad of handler methods *)

Definition M (A : Type) : Type := world → result A * world.

#[global] Instance M_ret : MRet M := λ A (a : A) w, (inr a, w).
#[global] Instance M_bind : MBind M := λ A B (f : A → M B) (m : M A) w,
  match m w with
  | (inr a, w') => f a w'
  | (inl e, w') => (inl e, w')
  end.

Definition raise {A} (e : exn) : M A := λ w, (inl e, w).
Definition get_world : M world := λ w, (inr w, w).
Definition put_world (w : world) : M unit := λ _, (inr tt, w).
Definition lift {A} (r : result A) : M A := λ w, (r, w).

Definition set_cache (c : Cache.DefaultCache) (w : world) : world :=
  World (MkHandler (access_token (self w)) (countries (self w))
                   (request_options (self w)) c)
        (heap w) (clock w) (sent w).
Definition set_heap (h : list value) (w : world) : world :=
  World (self w) h (clock w) (sent w).

(** [k in self.cache] *)
Definition cache_contains (k : LookupKey) : M bool :=
  w ← get_world; mret (Cache.contains (cache (self w)) (clock w) k).

(** [self.cache[k]] *)
Definition cache_getitem (k : LookupKey) : M ref :=
  w ← get_world;
  '(r, c) ← lift (Cache.getitem (cache (self w)) (clock w) k);
  put_world (set_cache c w);;
  mret r.

(** [self.cache[k] = v] *)
Definition cache_setitem (k : LookupKey) (v : ref) : M unit :=
  w ← get_world;
  put_world (set_cache (Cache.setitem (cache (self w)) (clock w) k v) w).

(** A new object on the heap. *)
Definition alloc (v : value) : M ref :=
  w ← get_world;
  put_world (set_heap (heap w ++ [v]) w);;
  mret (length (heap w)).

(** [o.get(k)] for the object [o] refers to. *)
Definition ref_get (o : ref) (k : string) : M value :=
  w ← get_world;
  match heap w !! o with
  | Some v => lift (obj_get v (VStr k))
  | None => raise AttributeError
  end.

(** [o[k] = v] for the object [o] refers to: the dictionary itself changes,
    for everyone who holds a reference to it. *)
Definition ref_setitem (o : ref) (k : string) (v : value) : M unit :=
  w ← get_world;
  match heap w !! o with
  | Some (VDict d) => put_world (set_heap (<[o := VDict (<[k := v]> d)]> (heap w)) w)
  | _ => raise TypeError
  end.

(** The call [requests.get(url, headers=..., **kwargs)] can bind its
    arguments: none of the keyword arguments passed along is itself called
    [url] or [headers]. *)
Definition call_binds (kwargs : gmap string value) : bool :=
  negb (bool_decide (is_Some (kwargs !! "url"))) &&
  negb (bool_decide (is_Some (kwargs !! "headers"))).

(** [requests.get(url, headers=..., **options)]: a call that names [url] or
    [headers] twice is a [TypeError] of the call itself, and nothing is
    sent; otherwise the request is recorded, the clock advances by the time
    the exchange takes, and the network's answer is returned or raised. *)
Definition requests_get (net : network) (rq : request) : M response :=
  if call_binds (options rq) then
    w ← get_world;
    let '(elapsed, answer) := net rq in
    put_world (World (self w) (heap w) (clock w + elapsed)%N (sent w ++ [rq]));;
    lift answer
  else raise TypeError.

(** [response.raise_for_status()] of the requests library: an [HTTPError]
    holding the response for a status from 400 to 599, nothing otherwise. *)
Definition raise_for_status (r : response) : M unit :=
  if bool_decide (400 ≤ status_code r < 600)%Z then raise (HTTPError r)
  else mret tt.

(** The caller lets [dt] clock ticks pass. *)
Definition sleep (dt : N) : M unit :=
  w ← get_world;
  put_world (World (self w) (heap w) (clock w + dt)%N (sent w)).

(** The value a key is cached with: the object its entry refers to. *)
Definition cached_value (w : world) (k : LookupKey) : option value :=
  r ← Cache.value_of (cache (self w)) (clock w) k; heap w !! r.

(** ** The class [Handler] *)

(** An optional string as a Python value. *)
Definition of_option (o : option string) : value :=
  match o with Some s => VStr s | None => VNone end.

Definition API_URL : string := "https://ipinfo.io".
Definition CACHE_MAXSIZE : N := 4096.
Definition CACHE_TTL : N := 60 * 60 * 24.
Definition COUNTRY_FILE_DEFAULT : string := "countries.json".
Definition REQUEST_TIMEOUT_DEFAULT : Z := 2.

(** The version of the package, from [setup.py]. *)
Definition version : string := "2.0.0".

(** The keyword arguments [Handler.__init__] reads. *)
Record kwargs := Kwargs {
  countries_file : option string;
  kw_request_options : option (gmap string value);
  kw_cache : option Cache.DefaultCache;
  cache_options : option (gmap string N)
}.

Section Platform.

(** What the handler takes from the platform it runs on: the JSON decoder
    ([None] when the text is not valid JSON), the files that can be
    opened with their contents, the directory of the package with
    [os.path.join], and the major version of the interpreter. *)
Variable json_loads : string → option value.
Variable files : string → option string.
Variable os_path_join : string → string → string.
Variable package_dir : string.
Variable python_major : N.

(** [response.json()]: the decoded body, a new object. *)
Definition response_json (r : response) : M ref :=
  match json_loads (text r) with
  | Some v => alloc v
  | None => raise JSONDecodeError
  end.

(** The file [_read_country_names] opens: the one given, or the default
    file next to the module when none (or an empty name) is given. *)
Definition country_path (countries_file : option string) : string :=
  if negb (truthy (of_option countries_file))
  then os_path_join package_dir COUNTRY_FILE_DEFAULT
  else default "" countries_file.

Definition _read_country_names (countries_file : option string) : result value :=
  let countries_file := country_path countries_file in
  match files countries_file with
  | Some countries_json =>
      match json_loads countries_json with
      | Some v => inr v
      | None => inl JSONDecodeError
      end
  | None => inl IOError
  end.

(** [Handler(access_token, **kwargs)]. The call
    [DefaultCache(maxsize, ttl, **cache_options)] passes [maxsize] and
    [ttl] by position and passes every cache option by name: cache options
    that name [maxsize] or [ttl] give the argument twice, a [TypeError] of
    the call. The other cache options, which the handler passes on without
    reading them, are left out. *)
Definition __init__ (access_token : option string) (kw : kwargs) : result Handler :=
  match _read_country_names (countries_file kw) with
  | inl e => inl e
  | inr countries =>
      let request_options := default ∅ (kw_request_options kw) in
      let request_options :=
        if bool_decide (is_Some (request_options !! "timeout")) then request_options
        else <["timeout" := VInt REQUEST_TIMEOUT_DEFAULT]> request_options in
      let cache : result Cache.DefaultCache :=
        match kw_cache kw with
        | Some c => inr c
        | None =>
            let cache_options := default ∅ (cache_options kw) in
            let maxsize := default CACHE_MAXSIZE (cache_options !! "maxsize") in
            let ttl := default CACHE_TTL (cache_options !! "ttl") in
            if bool_decide (is_Some (cache_options !! "maxsize") ∨
                            is_Some (cache_options !! "ttl"))
            then inl TypeError
            else inr (Cache.new maxsize ttl)
        end in
      match cache with
      | inl e => inl e
      | inr cache => inr (MkHandler access_token countries request_options cache)
      end
  end.

Definition _get_headers (h : Handler) : gmap string string :=
  let headers : gmap string string :=
    {[ "user-agent" := "IPinfoClient/Python" +:+ pretty python_major +:+ "/2.0.0";
       "accept" := "application/json" ]} in
  match access_token h with
  | Some token =>
      if truthy (VStr token) then <["authorization" := "Bearer " +:+ token]> headers
      else headers
  | None => headers
  end.

(** The URL [_requestDetails] builds for a key, and the request it sends. *)
Definition request_url (ip_address : LookupKey) : string :=
  match ip_address with
  | Some ip => if truthy (VStr ip) then API_URL +:+ "/" +:+ ip else API_URL
  | None => API_URL
  end.

Definition outbound (h : Handler) (ip_address : LookupKey) : request :=
  Request (request_url ip_address) (_get_headers h) (request_options h).

Definition _requestDetails (net : network) (ip_address : LookupKey) : M ref :=
  present ← cache_contains ip_address;
  (if negb present then
     let url := API_URL in
     let url :=
       match ip_address with
       | Some ip => if truthy (VStr ip) then url +:+ "/" +:+ ip else url
       | None => url
       end in
     w ← get_world;
     response ← requests_get net
       (Request url (_get_headers (self w)) (request_options (self w)));
     if bool_decide (status_code response = 429%Z)
     then raise RequestQuotaExceededError
     else
       raise_for_status response;;
       v ← response_json response;
       cache_setitem ip_address v
   else mret tt);;
  cache_getitem ip_address.

(** The three assignments of [getDetails] on the dictionary
    [raw_details]: the enrichment. *)
Definition enrich (raw_details : ref) : M unit :=
  w ← get_world;
  country ← ref_get raw_details "country";
  country_name ← lift (obj_get (countries (self w)) country);
  ref_setitem raw_details "country_name" country_name;;
  loc ← ref_get raw_details "loc";
  '(lat, lon) ← lift (_read_coords loc);
  ref_setitem raw_details "latitude" lat;;
  ref_setitem raw_details "longitude" lon.

Definition getDetails (net : network) (ip_address : LookupKey) : M Details :=
  raw_details ← _requestDetails net ip_address;
  enrich raw_details;;
  mret (MkDetails raw_details).

End Platform.

(** ** A concrete platform, for examples *)

Module Demo.

Definition dq : string := String (ascii_of_nat 34) "".
(** A JSON string literal. *)
Definition q (s : string) : string := dq +:+ s +:+ dq.
(** A JSON member with a string value. *)
Definition member (k v : string) : string := q k +:+ ":" +:+ q v.

(** The response of the scenario of the specification. *)
Definition body_us : string :=
  "{" +:+ member "ip" "8.8.8.8" +:+ "," +:+ member "country" "US" +:+ ","
      +:+ member "loc" "37.751,-97.822" +:+ "}".
Definition raw_us : gmap string value :=
  {[ "ip" := VStr "8.8.8.8"; "country" := VStr "US";
     "loc" := VStr "37.751,-97.822" ]}.

(** A response whose [loc] is a number. *)
Definition body_num : string := "{" +:+ q "loc" +:+ ":5}".
Definition raw_num : gmap string value := {[ "loc" := VInt 5 ]}.

(** A country file. *)
Definition countries_json : string := "{" +:+ member "US" "United States" +:+ "}".
Definition country_table : gmap string value := {[ "US" := VStr "United States" ]}.

(** A decoder that knows these three texts. *)
Definition json_loads (t : string) : option value :=
  if String.eqb t body_us then Some (VDict raw_us)
  else if String.eqb t body_num then Some (VDict raw_num)
  else if String.eqb t countries_json then Some (VDict country_table)
  else None.

Definition os_path_join (a b : string) : string := a +:+ "/" +:+ b.
Definition package_dir : string := "/site-packages/ipinfo".

(** Only the bundled country file exists, and a file that is not JSON. *)
Definition files (path : string) : option string :=
  if String.eqb path "/site-packages/ipinfo/countries.json" then Some countries_json
  else if String.eqb path "/tmp/broken.json" then Some "{"
  else None.


Definition handler : Handler :=
  MkHandler None (VDict country_table) {[ "timeout" := VInt 2 ]}
            (Cache.new CACHE_MAXSIZE CACHE_TTL).

Definition world0 : world := World handler [] 0 [].

(** A network that answers every request at once with the given status
    and body. *)
Definition answer (status : Z) (body : string) : network :=
  λ _, (0%N, inr (Response status body)).

Definition getDetails := getDetails json_loads 3.
Definition _requestDetails := _requestDetails json_loads 3.
Definition __init__ := __init__ json_loads files os_path_join package_dir.

(** The scenario of the specification: one lookup of 8.8.8.8, answered
    with status 200 and [body_us]. *)
Definition key : LookupKey := Some "8.8.8.8".
Definition net_us : network := answer 200 body_us.
Definition world1 : world := (getDetails net_us key world0).2.

(** What the scenario leaves of [raw_us]. *)
Definition enriched_us : gmap string value :=
  <["longitude" := VStr "-97.822"]>
    (<["latitude" := VStr "37.751"]>
       (<["country_name" := VStr "United States"]> raw_us)).


(** A handler with an access token. *)
Definition world_token : world :=
  World (MkHandler (Some "secret") (VDict country_table) {[ "timeout" := VInt 2 ]}
                   (Cache.new CACHE_MAXSIZE CACHE_TTL))
        [] 0 [].

(** A world whose heap holds one raw dictionary. *)
Definition world_with (raw : gmap string value) : world :=
  World handler [VDict raw] 0 [].

End Demo.

(** Further worlds and networks on the same platform. *)

Module Scenes.

(** A network that is down: after two ticks [requests.get] raises. *)
Definition down : network := λ _, (2%N, inl (TransportError "ConnectionError")).

(** A handler whose country file held a JSON array. *)
Definition world_array_table : world :=
  World (MkHandler None (VList []) {[ "timeout" := VInt 2 ]}
                   (Cache.new CACHE_MAXSIZE CACHE_TTL))
        [] 0 [].

(** Keyword arguments with request options of the caller's own. *)
Definition kw_proxy : kwargs :=
  Kwargs None (Some {[ "verify" := VBool false ]}) None None.



(** A world whose handler has request options that name [headers]. *)
Definition world_headers : world :=
  World (MkHandler None (VDict Demo.country_table)
                   {[ "headers" := VDict ∅; "timeout" := VInt 2 ]}
                   (Cache.new CACHE_MAXSIZE CACHE_TTL))
        [] 0 [].

(** The handler that construction with [kw_proxy] gives. *)
Definition handler_proxy : Handler :=
  MkHandler None (VDict Demo.country_table)
            (<["timeout" := VInt 2]> {[ "verify" := VBool false ]})
            (Cache.new CACHE_MAXSIZE CACHE_TTL).

End Scenes.

(** * Properties *)

(** ** Splitting a string *)

Section Split.

Variable sep : Ascii.ascii.

Lemma split_not_nil (s : string) : split sep s ≠ [].
Proof.
  destruct s as [|c s]; simpl; [done|].
  destruct (Ascii.eqb c sep); [done|]. by destruct (split sep s).
Qed.

Lemma split_sep_free (s : string) : sep_free sep s = true → split sep s = [s].
Proof.
  induction s as [|c s IH]; simpl; [done|].
  intros [Hc Hs]%andb_prop. apply negb_true_iff in Hc. rewrite Hc, (IH Hs). done.
Qed.

Lemma split_one (s b : string) : split sep s = [b] → s = b ∧ sep_free sep s = true.
Proof.
  revert b. induction s as [|c s IH]; simpl; intros b.
  - by intros [= <-].
  - destruct (Ascii.eqb c sep) eqn:Hc.
    + intros [= _ Hnil]. by apply split_not_nil in Hnil.
    + destruct (split sep s) as [|h t] eqn:Hs; [by apply split_not_nil in Hs|].
      intros [= <- ->]. destruct (IH h eq_refl) as [-> ->]. done.
Qed.

Lemma split_app (a b : string) :
  sep_free sep a = true → split sep (a +:+ String sep b) = a :: split sep b.
Proof.
  induction a as [|c a IH]; simpl.
  - intros _. by rewrite Ascii.eqb_refl.
  - intros [Hc Ha]%andb_prop. apply negb_true_iff in Hc.
    change (String.app a (String sep b)) with (a +:+ String sep b).
    rewrite Hc, (IH Ha). done.
Qed.

Lemma split_two (s a b : string) :
  split sep s = [a; b] →
  s = a +:+ String sep b ∧ sep_free sep a = true ∧ sep_free sep b = true.
Proof.
  revert a. induction s as [|c s IH]; simpl; intros a; [done|].
  destruct (Ascii.eqb c sep) eqn:Hc.
  - intros [= <- Hb]. apply Ascii.eqb_eq in Hc as ->.
    apply split_one in Hb as [-> Hb]. done.
  - destruct (split sep s) as [|h t] eqn:Hs; [done|].
    intros [= <- ->]. destruct (IH h eq_refl) as (-> & Ha & Hb).
    simpl. rewrite Hc, Ha. done.
Qed.

End Split.

(** ** [_read_coords] *)

Lemma truthy_str (s : string) : truthy (VStr s) = true ↔ s ≠ "".
Proof. by destruct s. Qed.

Lemma read_coords_str (s lat lon : string) :
  _read_coords (VStr s) = inr (VStr lat, VStr lon) ↔ lat_comma_lon s lat lon.
Proof.
  unfold _read_coords, lat_comma_lon. split.
  - destruct (truthy (VStr s)); [|done].
    destruct (split comma s) as [|c0 [|c1 [|? ?]]] eqn:Hs; try done.
    destruct (truthy (VStr c0)) eqn:H0; [|done].
    destruct (truthy (VStr c1)) eqn:H1; [|done].
    simpl. intros [= <- <-]. apply split_two in Hs as (-> & ? & ?).
    by rewrite <- !truthy_str.
  - intros (-> & Hlat & Hlon & Hl & Hr).
    assert (truthy (VStr (lat +:+ String comma lon)) = true) as ->
      by (by destruct lat).
    rewrite split_app, (split_sep_free _ _ Hlon) by done.
    apply truthy_str in Hl as ->. apply truthy_str in Hr as ->. done.
Qed.

Lemma read_coords_str_total (s : string) :
  _read_coords (VStr s) = inr (VNone, VNone) ∨
  ∃ lat lon, _read_coords (VStr s) = inr (VStr lat, VStr lon).
Proof.
  unfold _read_coords. destruct (truthy (VStr s)); [|by left].
  destruct (split comma s) as [|c0 [|c1 [|? ?]]]; try by left.
  destruct (truthy (VStr c0) && truthy (VStr c1)); [right; eauto | by left].
Qed.

Lemma read_coords_shape (location v1 v2 : value) :
  _read_coords location = inr (v1, v2) →
  (v1 = VNone ∧ v2 = VNone) ∨ ∃ lat lon, v1 = VStr lat ∧ v2 = VStr lon.
Proof.
  unfold _read_coords. destruct (truthy location); [|intros [= <- <-]; by left].
  destruct location; try done.
  destruct (split comma s) as [|c0 [|c1 [|? ?]]]; try (intros [= <- <-]; by left).
  destruct (truthy (VStr c0) && truthy (VStr c1)); intros [= <- <-]; [right; eauto | by left].
Qed.


(** ** The cache *)

Section CacheFacts.
Import Cache.

Lemma find_filter {A} (p q : A → bool) (l : list A) :
  (∀ x, p x = true → q x = true) →
  List.find p (filter (λ x, q x) l) = List.find p l.
Proof.
  intros Hpq. induction l as [|x l IH]; [done|].
  rewrite filter_cons. simpl. destruct (p x) eqn:Hp.
  - rewrite decide_True by (rewrite (Hpq x Hp); done). simpl. by rewrite Hp.
  - case_decide; simpl; [by rewrite Hp|done].
Qed.

Lemma lookup_holds (c : DefaultCache) (now : N) (k : LookupKey) (e : entry) :
  lookup c now k = Some e → e_key e = k ∧ (now ≤ e_stamp e + ttl c)%N.
Proof.
  unfold lookup. intros [_ H]%find_some. unfold holds, has_key, live in H.
  apply andb_prop in H as [H1 H2]. by apply bool_decide_eq_true in H1, H2.
Qed.

Lemma lookup_touch (c : DefaultCache) (now : N) (k k' : LookupKey) (e : entry) :
  lookup c now k = Some e →
  lookup (touch c k e) now k' = lookup c now k'.
Proof.
  intros He. unfold lookup at 1. simpl.
  destruct (decide (k' = k)) as [->|Hne].
  - rewrite He. pose proof He as [_ H]%find_some. 
    change (holds (touch c k e) now k e) with (holds c now k e). by rewrite H.
  - apply lookup_holds in He as Hk. destruct Hk as [Hk _].
    change (holds (touch c k e) now k' e) with (holds c now k' e).
    assert (holds c now k' e = false) as ->.
    { unfold holds, has_key. rewrite bool_decide_eq_false_2; [done|congruence]. }
    apply (find_filter (holds c now k') (λ e', negb (has_key k e'))).
    intros x [Hx _]%andb_prop. unfold has_key in *.
    apply bool_decide_eq_true in Hx. rewrite bool_decide_eq_false_2; [done|congruence].
Qed.

Lemma lookup_None_later (c : DefaultCache) (now now' : N) (k : LookupKey) :
  (now ≤ now')%N → lookup c now k = None → lookup c now' k = None.
Proof.
  intros Hle. unfold lookup. induction (entries c) as [|e l IH]; [done|]. simpl.
  destruct (holds c now k e) eqn:H; [done|]. intros Hl.
  assert (holds c now' k e = false) as ->; [|by apply IH].
  unfold holds, live in *. apply andb_false_iff in H as [H|H]; [by rewrite H|].
  apply bool_decide_eq_false in H. rewrite (bool_decide_eq_false_2 (now' ≤ _)%N) by lia.
  apply andb_false_r.
Qed.

Lemma lookup_setitem (c : DefaultCache) (now now' : N) (k : LookupKey) (v : ref) :
  (0 < maxsize c)%N → (now' ≤ now + ttl c)%N →
  lookup (setitem c now k v) now' k = Some (Entry k v now).
Proof.
  intros Hm Hle. unfold lookup, setitem. simpl.
  destruct (N.to_nat (maxsize c)) as [|n] eqn:Hn; [lia|]. simpl.
  unfold holds, has_key, live. simpl.
  by rewrite !bool_decide_eq_true_2.
Qed.

(** A cache without room keeps nothing. *)
Lemma lookup_setitem_no_room (c : DefaultCache) (now now' : N) (k : LookupKey)
    (v : ref) :
  maxsize c = 0%N → lookup (setitem c now k v) now' k = None.
Proof. intros Hm. unfold lookup, setitem. by rewrite Hm. Qed.

Lemma lookup_Some_later (c : DefaultCache) (now now' : N) (k : LookupKey) (e : entry) :
  (now ≤ now')%N → (now' ≤ e_stamp e + ttl c)%N →
  lookup c now k = Some e → lookup c now' k = Some e.
Proof.
  intros Hle Hlive. unfold lookup. induction (entries c) as [|x l IH]; [done|]. simpl.
  unfold holds, live in *. destruct (has_key k x) eqn:Hk; simpl; [|done].
  case_bool_decide as H1.
  - intros [= ->]. by rewrite bool_decide_eq_true_2.
  - rewrite bool_decide_eq_false_2 by lia. done.
Qed.

End CacheFacts.

(** ** The monad and the heap *)

Lemma bind_eq {A B} (m : M A) (f : A → M B) (w : world) :
  (m ≫= f) w =
  match m w with
  | (inr a, w') => f a w'
  | (inl e, w') => (inl e, w')
  end.
Proof. reflexivity. Qed.

Lemma ref_get_dict (r : ref) (k : string) (w : world) (d : gmap string value) :
  heap w !! r = Some (VDict d) →
  ref_get r k w = (inr (default VNone (d !! k)), w).
Proof. intros H. unfold ref_get. rewrite bind_eq. simpl. by rewrite H. Qed.

Lemma ref_setitem_dict (r : ref) (k : string) (v : value) (w : world)
    (d : gmap string value) :
  heap w !! r = Some (VDict d) →
  ref_setitem r k v w =
    (inr tt, set_heap (<[r := VDict (<[k := v]> d)]> (heap w)) w).
Proof. intros H. unfold ref_setitem. rewrite bind_eq. simpl. by rewrite H. Qed.

Lemma heap_insert_lookup (h : list value) (r : ref) (v v' : value) :
  h !! r = Some v → <[r := v']> h !! r = Some v'.
Proof. intros H. apply list_lookup_insert_eq. by eapply lookup_lt_Some. Qed.

(** ** The methods, as equations *)

Section HandlerFacts.
Variable json_loads : string → option value.
Variable python_major : N.

Lemma enrich_eq (r : ref) (w : world) :
  enrich r w =
  match heap w !! r with
  | Some (VDict d) =>
      match obj_get (countries (self w)) (default VNone (d !! "country")) with
      | inr name =>
          match _read_coords (default VNone (d !! "loc")) with
          | inr (lat, lon) =>
              (inr tt,
               set_heap (<[r := VDict (<["longitude" := lon]>
                                      (<["latitude" := lat]>
                                      (<["country_name" := name]> d)))]> (heap w)) w)
          | inl e =>
              (inl e, set_heap (<[r := VDict (<["country_name" := name]> d)]> (heap w)) w)
          end
      | inl e => (inl e, w)
      end
  | _ => (inl AttributeError, w)
  end.
Proof.
  unfold enrich. rewrite bind_eq. simpl.
  destruct (heap w !! r) as [v|] eqn:Hr.
  2:{ unfold ref_get. rewrite !bind_eq. simpl. by rewrite Hr. }
  destruct v; try (unfold ref_get; rewrite !bind_eq; simpl; by rewrite Hr).
  rewrite bind_eq, (ref_get_dict _ _ _ _ Hr).
  rewrite bind_eq. unfold lift at 1.
  destruct (obj_get _ _) as [e|name]; [done|].
  rewrite bind_eq, (ref_setitem_dict _ _ _ _ _ Hr).
  pose proof (heap_insert_lookup _ _ _ (VDict (<["country_name":=name]> d)) Hr) as H1.
  rewrite bind_eq, (ref_get_dict _ _ (set_heap _ w) _ H1).
  rewrite lookup_insert_ne by done.
  rewrite bind_eq. unfold lift at 1.
  destruct (_read_coords _) as [e|[lat lon]]; [done|].
  rewrite bind_eq, (ref_setitem_dict _ _ _ (set_heap _ w) _ H1). simpl heap.
  rewrite list_insert_insert_eq.
  pose proof (heap_insert_lookup _ _ _ (VDict (<["latitude":=lat]> (<["country_name":=name]> d))) Hr) as H2.
  rewrite (ref_setitem_dict _ _ _ (set_heap _ (set_heap _ w)) _ H2). simpl heap.
  by rewrite list_insert_insert_eq.
Qed.

Lemma requestDetails_hit (net : network) (k : LookupKey) (w : world) (e : Cache.entry) :
  Cache.lookup (cache (self w)) (clock w) k = Some e →
  _requestDetails json_loads python_major net k w = cache_getitem k w.
Proof.
  intros H. unfold _requestDetails, cache_contains. rewrite !bind_eq. simpl.
  unfold Cache.contains. by rewrite H.
Qed.

Lemma requestDetails_miss (net : network) (k : LookupKey) (w : world) :
  Cache.lookup (cache (self w)) (clock w) k = None →
  call_binds (request_options (self w)) = true →
  _requestDetails json_loads python_major net k w =
    let rq := outbound python_major (self w) k in
    let w1 := World (self w) (heap w) (clock w + (net rq).1) (sent w ++ [rq]) in
    match (net rq).2 with
    | inl e => (inl e, w1)
    | inr resp =>
        if bool_decide (status_code resp = 429%Z)
        then (inl RequestQuotaExceededError, w1)
        else if bool_decide (400 ≤ status_code resp < 600)%Z
        then (inl (HTTPError resp), w1)
        else match json_loads (text resp) with
             | None => (inl JSONDecodeError, w1)
             | Some v =>
                 cache_getitem k
                   (set_cache (Cache.setitem (cache (self w)) (clock w1) k (length (heap w)))
                              (set_heap (heap w ++ [v]) w1))
             end
    end.
Proof.
  intros H Hb.
  unfold outbound, request_url, _requestDetails, cache_contains, requests_get,
    raise_for_status, response_json, cache_setitem, alloc, Cache.contains.
  unfold get_world, put_world, lift, raise, mbind, M_bind, mret, M_ret.
  rewrite H. simpl. rewrite Hb.
  destruct (net _) as [elapsed [e|resp]]; simpl; [done|].
  case_bool_decide; [done|].
  case_bool_decide; [done|].
  destruct (json_loads (text resp)); [|done].
  reflexivity.
Qed.

(** A miss of a handler whose request options name [url] or [headers]:
    the call of [requests.get] raises, and nothing has happened. *)
Lemma requestDetails_unbound (net : network) (k : LookupKey) (w : world) :
  Cache.lookup (cache (self w)) (clock w) k = None →
  call_binds (request_options (self w)) = false →
  _requestDetails json_loads python_major net k w = (inl TypeError, w).
Proof.
  intros H Hb.
  unfold _requestDetails, cache_contains, requests_get, Cache.contains.
  unfold get_world, put_world, lift, raise, mbind, M_bind, mret, M_ret.
  rewrite H. simpl. by rewrite Hb.
Qed.

Lemma cache_getitem_eq (k : LookupKey) (w : world) :
  cache_getitem k w =
  match Cache.lookup (cache (self w)) (clock w) k with
  | Some e => (inr (Cache.e_val e), set_cache (Cache.touch (cache (self w)) k e) w)
  | None => (inl KeyError, w)
  end.
Proof.
  unfold cache_getitem, Cache.getitem, get_world, put_world, lift.
  unfold mbind, M_bind, mret, M_ret.
  by destruct (Cache.lookup _ _ _).
Qed.

(** Enrichment touches the heap only. *)
Lemma enrich_frame (r : ref) (w w' : world) (res : result ()) :
  enrich r w = (res, w') →
  self w' = self w ∧ clock w' = clock w ∧ sent w' = sent w ∧
  ∀ r', r' ≠ r → heap w' !! r' = heap w !! r'.
Proof.
  rewrite enrich_eq. intros H.
  repeat case_match; simplify_eq; simpl; split_and!; try done;
    intros r' Hr'; by rewrite list_lookup_insert_ne.
Qed.

Lemma enrich_inv (r : ref) (w w' : world) :
  enrich r w = (inr tt, w') →
  ∃ d name lat lon,
    heap w !! r = Some (VDict d) ∧
    obj_get (countries (self w)) (default VNone (d !! "country")) = inr name ∧
    _read_coords (default VNone (d !! "loc")) = inr (lat, lon) ∧
    w' = set_heap (<[r := VDict (<["longitude" := lon]>
                                (<["latitude" := lat]>
                                (<["country_name" := name]> d)))]> (heap w)) w.
Proof.
  rewrite enrich_eq. intros H. repeat case_match; simplify_eq. eauto 10.
Qed.

(** Enriching a dictionary that was enriched before changes nothing. *)
Lemma enrich_again (r : ref) (w : world) (d : gmap string value)
    (name lat lon : value) :
  heap w !! r = Some (VDict (<["longitude" := lon]>
                            (<["latitude" := lat]>
                            (<["country_name" := name]> d)))) →
  obj_get (countries (self w)) (default VNone (d !! "country")) = inr name →
  _read_coords (default VNone (d !! "loc")) = inr (lat, lon) →
  enrich r w = (inr tt, w).
Proof.
  intros Hr Hname Hloc. rewrite enrich_eq, Hr.
  rewrite !(lookup_insert_ne _ _ "country"), !(lookup_insert_ne _ _ "loc") by done.
  rewrite Hname, Hloc. f_equal. destruct w as [h hp c s]. unfold set_heap. simpl in *.
  f_equal. apply list_insert_id. rewrite Hr. do 2 f_equal.
  apply map_eq. intros i. rewrite !lookup_insert. by repeat case_decide.
Qed.

Lemma getDetails_inv (net : network) (k : LookupKey) (w w' : world) (dt : Details) :
  getDetails json_loads python_major net k w = (inr dt, w') →
  ∃ w1, _requestDetails json_loads python_major net k w = (inr (details dt), w1) ∧
        enrich (details dt) w1 = (inr tt, w').
Proof.
  unfold getDetails. rewrite !bind_eq.
  destruct (_requestDetails _ _ _ _ _) as [[e|r] w1]; [done|].
  rewrite bind_eq. destruct (enrich r w1) as [[e|[]] w2] eqn:He; [done|].
  intros [= <- <-]. by exists w1.
Qed.

(** The requests a call sends: none on a hit, one on a miss, unless the
    call of [requests.get] cannot bind its arguments. *)
Lemma requestDetails_sent (net : network) (k : LookupKey) (w w1 : world)
    (res : result ref) :
  _requestDetails json_loads python_major net k w = (res, w1) →
  sent w1 = sent w ++
    (if Cache.contains (cache (self w)) (clock w) k then []
     else if call_binds (request_options (self w))
          then [outbound python_major (self w) k] else []).
Proof.
  unfold Cache.contains.
  destruct (Cache.lookup (cache (self w)) (clock w) k) as [e|] eqn:Hl.
  - rewrite (requestDetails_hit _ _ _ _ Hl), cache_getitem_eq, Hl.
    intros [= <- <-]. simpl. by rewrite app_nil_r.
  - destruct (call_binds (request_options (self w))) eqn:Hb.
    2:{ rewrite (requestDetails_unbound _ _ _ Hl Hb). intros [= <- <-].
        by rewrite app_nil_r. }
    rewrite (requestDetails_miss _ _ _ Hl Hb). simpl.
    repeat case_match; try (by intros [= <- <-]).
    rewrite cache_getitem_eq. case_match; by intros [= <- <-].
Qed.

Lemma getDetails_sent (net : network) (k : LookupKey) (w w' : world)
    (res : result Details) :
  getDetails json_loads python_major net k w = (res, w') →
  sent w' = sent w ++
    (if Cache.contains (cache (self w)) (clock w) k then []
     else if call_binds (request_options (self w))
          then [outbound python_major (self w) k] else []).
Proof.
  unfold getDetails. rewrite !bind_eq.
  destruct (_requestDetails _ _ _ _ _) as [[e|r] w1] eqn:Hreq.
  - intros [= <- <-]. by apply requestDetails_sent in Hreq.
  - rewrite bind_eq. destruct (enrich r w1) as [res' w2] eqn:He.
    apply enrich_frame in He as (_ & _ & Hs & _).
    apply requestDetails_sent in Hreq.
    destruct res'; intros [= <- <-]; congruence.
Qed.

(** After [_requestDetails] has returned, the cache maps the key to the
    object returned. *)
Lemma requestDetails_cached (net : network) (k : LookupKey) (w w1 : world) (r : ref) :
  _requestDetails json_loads python_major net k w = (inr r, w1) →
  ∃ e, Cache.lookup (cache (self w1)) (clock w1) k = Some e ∧ Cache.e_val e = r.
Proof.
  destruct (Cache.lookup (cache (self w)) (clock w) k) as [e|] eqn:Hl.
  - rewrite (requestDetails_hit _ _ _ _ Hl), cache_getitem_eq, Hl.
    intros [= <- <-]. exists e. simpl. by rewrite lookup_touch.
  - destruct (call_binds (request_options (self w))) eqn:Hb;
      [|by rewrite (requestDetails_unbound _ _ _ Hl Hb)].
    rewrite (requestDetails_miss _ _ _ Hl Hb). simpl.
    repeat case_match; try done.
    rewrite cache_getitem_eq. case_match eqn:Hl'; [|done].
    intros [= <- <-]. simpl in *. eexists. by rewrite lookup_touch.
Qed.

(** C5. For every key that is not in the cache, when the call of
    [requests.get] delivers a response (it has bound its arguments and the
    network has answered) and the response has status 429, [getDetails]
    raises [RequestQuotaExceededError]; the cache is left as it was, so the
    key is still absent; and exactly one request was sent: there is no
    retry. *)
Theorem quota_exceeded_not_cached (net : network) (k : LookupKey) (w : world)
    (elapsed : N) (resp : response) :
  Cache.contains (cache (self w)) (clock w) k = false →
  call_binds (request_options (self w)) = true →
  net (outbound python_major (self w) k) = (elapsed, inr resp) →
  status_code resp = 429%Z →
  ∃ w', getDetails json_loads python_major net k w
          = (inl RequestQuotaExceededError, w') ∧
        cache (self w') = cache (self w) ∧
        Cache.contains (cache (self w')) (clock w') k = false ∧
        sent w' = sent w ++ [outbound python_major (self w) k].
Proof.
  unfold Cache.contains. intros Hc Hb Hnet Hstatus.
  destruct (Cache.lookup (cache (self w)) (clock w) k) eqn:Hl; [done|].
  unfold getDetails. rewrite bind_eq, (requestDetails_miss _ _ _ Hl Hb). simpl.
  rewrite Hnet. simpl. rewrite bool_decide_eq_true_2 by done.
  eexists. split_and!; [done..| |done]. simpl.
  rewrite (lookup_None_later _ (clock w)); [done|lia|done].
Qed.

(** C6, as the code has it. For every key that is not in the cache, when
    the call of [requests.get] delivers a response (it has bound its
    arguments and the network has answered) and
    the response has a status from 400 to 599 other than 429,
    [getDetails] raises the [HTTPError] of the requests library, which
    holds the response with its status code and body; the cache is left as
    it was, so the key is still absent. *)
Theorem http_error_not_cached (net : network) (k : LookupKey) (w : world)
    (elapsed : N) (resp : response) :
  Cache.contains (cache (self w)) (clock w) k = false →
  call_binds (request_options (self w)) = true →
  net (outbound python_major (self w) k) = (elapsed, inr resp) →
  (400 ≤ status_code resp < 600)%Z →
  status_code resp ≠ 429%Z →
  ∃ w', getDetails json_loads python_major net k w = (inl (HTTPError resp), w') ∧
        cache (self w') = cache (self w) ∧
        Cache.contains (cache (self w')) (clock w') k = false.
Proof.
  unfold Cache.contains. intros Hc Hb Hnet Hrange Hstatus.
  destruct (Cache.lookup (cache (self w)) (clock w) k) eqn:Hl; [done|].
  unfold getDetails. rewrite bind_eq, (requestDetails_miss _ _ _ Hl Hb). simpl.
  rewrite Hnet. simpl.
  rewrite bool_decide_eq_false_2, bool_decide_eq_true_2 by done.
  eexists. split_and!; [done..|]. simpl.
  rewrite (lookup_None_later _ (clock w)); [done|lia|done].
Qed.

(** The headers of a handler. *)
Lemma get_headers_spec (h : Handler) :
  _get_headers python_major h !! "user-agent"
    = Some ("IPinfoClient/Python" +:+ pretty python_major +:+ "/" +:+ version) ∧
  _get_headers python_major h !! "accept" = Some "application/json" ∧
  _get_headers python_major h !! "authorization"
    = match access_token h with
      | Some token => if decide (token = "") then None else Some ("Bearer " +:+ token)
      | None => None
      end.
Proof.
  unfold _get_headers. destruct (access_token h) as [token|]; [|done].
  destruct token; done.
Qed.

(** C9. Every request a call of [getDetails] sends carries a [user-agent]
    header that names the client, the major version of Python and the
    version of the package, an [accept] header equal to
    [application/json], and an [authorization] header equal to
    [Bearer <token>] exactly when the handler has an access token (a
    non-empty string; [None] and the empty string both count as no token). *)
Theorem outbound_headers (net : network) (k : LookupKey) (w w' : world)
    (res : result Details) (new : list request) (rq : request) :
  getDetails json_loads python_major net k w = (res, w') →
  sent w' = sent w ++ new →
  rq ∈ new →
  headers rq !! "user-agent"
    = Some ("IPinfoClient/Python" +:+ pretty python_major +:+ "/" +:+ version) ∧
  headers rq !! "accept" = Some "application/json" ∧
  headers rq !! "authorization"
    = match access_token (self w) with
      | Some token => if decide (token = "") then None else Some ("Bearer " +:+ token)
      | None => None
      end.
Proof.
  intros Hrun Hsent Hin. apply getDetails_sent in Hrun.
  rewrite Hrun in Hsent. apply app_inv_head in Hsent as <-.
  destruct (Cache.contains _ _ _); [by apply elem_of_nil in Hin|].
  destruct (call_binds _); [|by apply elem_of_nil in Hin].
  apply list_elem_of_singleton in Hin as ->. apply get_headers_spec.
Qed.

(** C8. Enrichment is idempotent: enriching a dictionary and then
    enriching it again leaves it, and the whole world, as enriching it once
    does; the country table is that of the handler both times. *)
Theorem enrich_idempotent (r : ref) (w : world) :
  (enrich r ;; enrich r) w = enrich r w.
Proof.
  rewrite bind_eq. destruct (enrich r w) as [[e|[]] w'] eqn:He; [done|].
  apply enrich_inv in He as (d & name & lat & lon & Hr & Hname & Hloc & ->).
  eapply enrich_again; [|done..]. simpl. by eapply heap_insert_lookup.
Qed.

(** What a successful enrichment leaves in the dictionary. *)
Lemma enrich_result (r : ref) (w w' : world) (raw : gmap string value) :
  heap w !! r = Some (VDict raw) →
  enrich r w = (inr tt, w') →
  ∃ (cs d : gmap string value) (name lat lon : value),
    countries (self w) = VDict cs ∧
    dict_get cs (default VNone (raw !! "country")) = inr name ∧
    _read_coords (default VNone (raw !! "loc")) = inr (lat, lon) ∧
    heap w' !! r = Some (VDict d) ∧
    d !! "country_name" = Some name ∧
    d !! "latitude" = Some lat ∧
    d !! "longitude" = Some lon ∧
    ∀ key, key ≠ "country_name" → key ≠ "latitude" → key ≠ "longitude" →
           d !! key = raw !! key.
Proof.
  intros Hr (d & name & lat & lon & Hr' & Hname & Hloc & ->)%enrich_inv.
  rewrite Hr in Hr'. injection Hr' as <-.
  destruct (countries (self w)) as [| | | | | |cs] eqn:Hcs; try done.
  exists cs, (<["longitude":=lon]> (<["latitude":=lat]> (<["country_name":=name]> raw))),
    name, lat, lon.
  split_and!; try done.
  - simpl. by eapply heap_insert_lookup.
  - by rewrite !lookup_insert.
  - by rewrite !lookup_insert.
  - by rewrite !lookup_insert.
  - intros key ???. by rewrite !lookup_insert_ne.
Qed.

(** [_requestDetails] changes no attribute of the handler but the cache. *)
Lemma requestDetails_config (net : network) (k : LookupKey) (w w1 : world)
    (res : result ref) :
  _requestDetails json_loads python_major net k w = (res, w1) →
  access_token (self w1) = access_token (self w) ∧
  countries (self w1) = countries (self w) ∧
  request_options (self w1) = request_options (self w).
Proof.
  destruct (Cache.lookup (cache (self w)) (clock w) k) as [e|] eqn:Hl.
  - rewrite (requestDetails_hit _ _ _ _ Hl), cache_getitem_eq, Hl. by intros [= <- <-].
  - destruct (call_binds (request_options (self w))) eqn:Hb;
      [|rewrite (requestDetails_unbound _ _ _ Hl Hb); by intros [= <- <-]].
    rewrite (requestDetails_miss _ _ _ Hl Hb). simpl.
    repeat case_match; try (by intros [= <- <-]).
    rewrite cache_getitem_eq. case_match; by intros [= <- <-].
Qed.

(** A country that is absent, or is not a code of the table, has no name. *)
Lemma dict_get_unknown (cs raw : gmap string value) (name : value) :
  dict_get cs (default VNone (raw !! "country")) = inr name →
  (∀ code, raw !! "country" = Some (VStr code) → cs !! code = None) →
  name = VNone.
Proof.
  intros Hname Hunknown.
  destruct (raw !! "country") as [c|] eqn:Hc; simpl in Hname; [|by injection Hname].
  destruct c; simpl in Hname; try (by injection Hname); try done.
  rewrite (Hunknown s eq_refl) in Hname. by injection Hname.
Qed.

(** A [loc] that is absent, or is not a latitude, a comma and a longitude,
    has no coordinates. *)
Lemma read_coords_malformed (raw : gmap string value) (lat lon : value) :
  _read_coords (default VNone (raw !! "loc")) = inr (lat, lon) →
  (∀ s a b, raw !! "loc" = Some (VStr s) → ¬ lat_comma_lon s a b) →
  lat = VNone ∧ lon = VNone.
Proof.
  intros Hloc Hbad.
  destruct (read_coords_shape _ _ _ Hloc) as [[-> ->]|(a & b & -> & ->)]; [done|].
  destruct (raw !! "loc") as [v|] eqn:Hv; simpl in Hloc; [|done].
  destruct v; try (unfold _read_coords in Hloc; by case_match).
  apply read_coords_str in Hloc. by destruct (Hbad s a b).
Qed.

(** [d.get(k)] returns exactly for the keys that have a hash. *)
Lemma dict_get_hashable (cs : gmap string value) (k : value) :
  (∃ v, dict_get cs k = inr v) ↔ hashable k = true.
Proof.
  destruct k; simpl;
    first [ by split; [intros [? ?] | intros ?]
          | split; [done | intros _; eauto] ].
Qed.

(** [_read_coords] returns exactly for a string and for a false value. *)
Lemma read_coords_returns (location : value) :
  (∃ p, _read_coords location = inr p) ↔
  truthy location = false ∨ ∃ s, location = VStr s.
Proof.
  unfold _read_coords. split.
  - intros [p Hp]. destruct (truthy location); [|by left].
    destruct location; try done. right. eauto.
  - intros [->|[s ->]]; [eauto|].
    destruct (read_coords_str_total s) as [H|(a & b & H)];
      unfold _read_coords in H; rewrite H; eauto.
Qed.

(** C4, as the code has it. For a raw dictionary and a country table that
    is a dictionary, enrichment returns exactly when the country has a hash
    (it is not a list or a dictionary) and [loc] is a string or a false
    value ([None], absent, [False], zero, empty); it raises for every other
    raw dictionary. When it returns, a country that is not a code of the
    table gives [country_name] the value [None], and a [loc] that is not a
    latitude, a comma and a longitude gives [latitude] and [longitude] the
    value [None]. *)
Theorem enrich_returns_iff (r : ref) (w : world) (raw cs : gmap string value) :
  heap w !! r = Some (VDict raw) →
  countries (self w) = VDict cs →
  ((∃ w', enrich r w = (inr tt, w')) ↔
   hashable (default VNone (raw !! "country")) = true ∧
   (truthy (default VNone (raw !! "loc")) = false ∨
    ∃ s, default VNone (raw !! "loc") = VStr s)) ∧
  (∀ w', enrich r w = (inr tt, w') →
     ∃ d, heap w' !! r = Some (VDict d) ∧
       ((∀ code, raw !! "country" = Some (VStr code) → cs !! code = None) →
        d !! "country_name" = Some VNone) ∧
       ((∀ s lat lon, raw !! "loc" = Some (VStr s) → ¬ lat_comma_lon s lat lon) →
        d !! "latitude" = Some VNone ∧ d !! "longitude" = Some VNone)).
Proof.
  intros Hr Hcs. split.
  - rewrite enrich_eq, Hr, Hcs. simpl.
    rewrite <- dict_get_hashable, <- read_coords_returns. split.
    + intros [w' H]. repeat case_match; simplify_eq. eauto.
    + intros [[name ->] [[lat lon] ->]]. eauto.
  - intros w' Henrich.
    destruct (enrich_result _ _ _ _ Hr Henrich)
      as (cs' & d & name & lat & lon & Hcs' & Hname & Hloc & Hd & Hn & Hlat & Hlon & _).
    rewrite Hcs in Hcs'. injection Hcs' as <-.
    exists d. split_and!; [done| |].
    + intros Hunknown. rewrite Hn. f_equal. by eapply dict_get_unknown.
    + intros Hbad. rewrite Hlat, Hlon.
      by destruct (read_coords_malformed _ _ _ Hloc Hbad) as [-> ->].
Qed.

(** C10. After every successful call of [getDetails] the record returned
    has the three keys [country_name], [latitude] and [longitude], and all
    other fields as [_requestDetails] delivered them. When the country is
    absent or is not a code of the table, [country_name] is there with
    value [None]; when [loc] is absent or is not a latitude, a comma and a
    longitude, [latitude] and [longitude] are there with value [None]. *)
Theorem details_have_derived_keys (net : network) (k : LookupKey) (w w' : world)
    (dt : Details) :
  getDetails json_loads python_major net k w = (inr dt, w') →
  ∃ (w1 : world) (cs raw d : gmap string value),
    _requestDetails json_loads python_major net k w = (inr (details dt), w1) ∧
    heap w1 !! details dt = Some (VDict raw) ∧
    countries (self w) = VDict cs ∧
    heap w' !! details dt = Some (VDict d) ∧
    is_Some (d !! "country_name") ∧
    is_Some (d !! "latitude") ∧
    is_Some (d !! "longitude") ∧
    (∀ key, key ≠ "country_name" → key ≠ "latitude" → key ≠ "longitude" →
            d !! key = raw !! key) ∧
    ((∀ code, raw !! "country" = Some (VStr code) → cs !! code = None) →
     d !! "country_name" = Some VNone) ∧
    ((∀ s lat lon, raw !! "loc" = Some (VStr s) → ¬ lat_comma_lon s lat lon) →
     d !! "latitude" = Some VNone ∧ d !! "longitude" = Some VNone).
Proof.
  intros (w1 & Hreq & Henrich)%getDetails_inv.
  pose proof Henrich as (raw & ? & ? & ? & Hr & _)%enrich_inv.
  destruct (enrich_result _ _ _ _ Hr Henrich)
    as (cs & d & name & lat & lon & Hcs & Hname & Hloc & Hd & Hn & Hlat & Hlon & Hrest).
  apply requestDetails_config in Hreq as Hself. destruct Hself as (_ & Hself & _).
  rewrite Hself in Hcs.
  exists w1, cs, raw, d. split_and!; try done.
  - intros Hunknown. rewrite Hn. f_equal. by eapply dict_get_unknown.
  - intros Hbad. rewrite Hlat, Hlon.
    by destruct (read_coords_malformed _ _ _ Hloc Hbad) as [-> ->].
Qed.

(** A lookup that misses the cache returns when the call of
    [requests.get] binds its arguments, the answer has a status
    that is not an error, its body is a JSON object whose country has a
    hash and whose [loc] is a string or a false value, the cache has room
    and the country table is a dictionary. The record is a new object. *)
Lemma getDetails_returns (net : network) (k : LookupKey) (w : world)
    (elapsed : N) (resp : response) (raw cs : gmap string value) :
  Cache.contains (cache (self w)) (clock w) k = false →
  call_binds (request_options (self w)) = true →
  net (outbound python_major (self w) k) = (elapsed, inr resp) →
  status_code resp ≠ 429%Z →
  ¬ (400 ≤ status_code resp < 600)%Z →
  json_loads (text resp) = Some (VDict raw) →
  (0 < Cache.maxsize (cache (self w)))%N →
  countries (self w) = VDict cs →
  hashable (default VNone (raw !! "country")) = true →
  (truthy (default VNone (raw !! "loc")) = false ∨
   ∃ s, default VNone (raw !! "loc") = VStr s) →
  ∃ w', getDetails json_loads python_major net k w
          = (inr (MkDetails (length (heap w))), w') ∧
        sent w' = sent w ++ [outbound python_major (self w) k].
Proof.
  unfold Cache.contains. intros Hmiss Hb Hnet H429 Herr Hjson Hroom Hcs Hcountry Hloc.
  destruct (Cache.lookup (cache (self w)) (clock w) k) eqn:Hl; [done|].
  apply dict_get_hashable with (cs := cs) in Hcountry as [name Hname].
  apply read_coords_returns in Hloc as [[lat lon] Hloc].
  unfold getDetails. rewrite bind_eq, (requestDetails_miss _ _ _ Hl Hb). simpl.
  rewrite Hnet. simpl. rewrite !bool_decide_eq_false_2 by done.
  rewrite Hjson, cache_getitem_eq. simpl.
  rewrite lookup_setitem by (simpl; first [done | lia]). simpl.
  rewrite bind_eq, enrich_eq. simpl.
  rewrite lookup_app_r, Nat.sub_diag by done. simpl.
  rewrite Hcs. simpl. rewrite Hname, Hloc. eauto.
Qed.

(** A call that follows a successful one, while the entry of the key is
    not older than the TTL, is a hit that finds the record enriched: it
    returns the same record, sends nothing and leaves the heap as it is. *)
Lemma getDetails_again (net1 net2 : network) (k : LookupKey) (w w1 : world)
    (dt : Details) (pause : N) :
  getDetails json_loads python_major net1 k w = (inr dt, w1) →
  (∀ e, Cache.lookup (cache (self w1)) (clock w1) k = Some e →
        (clock w1 + pause ≤ Cache.e_stamp e + Cache.ttl (cache (self w1)))%N) →
  ∃ w2, (sleep pause ;; getDetails json_loads python_major net2 k) w1 = (inr dt, w2) ∧
        sent w2 = sent w1 ∧ heap w2 = heap w1.
Proof.
  intros Hfirst Hfresh.
  apply getDetails_inv in Hfirst as (w0 & Hreq & Henrich).
  apply requestDetails_cached in Hreq as (e & Hl & Hval).
  pose proof (enrich_frame _ _ _ _ Henrich) as (Hself & Hclock & _ & _).
  apply enrich_inv in Henrich as (d & name & lat & lon & Hr & Hname & Hloc & Hw1).
  rewrite Hself, Hclock in Hfresh. specialize (Hfresh e Hl).
  assert (Cache.lookup (cache (self w1)) (clock w1 + pause) k = Some e) as Hl'.
  { rewrite Hself, Hclock. apply (lookup_Some_later _ (clock w0)); [lia|done..]. }
  set (ws := World (self w1) (heap w1) (clock w1 + pause) (sent w1)).
  rewrite bind_eq. change (sleep pause w1) with (inr tt : result (), ws). cbv beta iota.
  unfold getDetails.
  rewrite bind_eq, (requestDetails_hit net2 k ws e Hl'), cache_getitem_eq.
  change (Cache.lookup (cache (self ws)) (clock ws) k)
    with (Cache.lookup (cache (self w1)) (clock w1 + pause) k).
  rewrite Hl', Hval, bind_eq.
  erewrite enrich_again.
  - eexists. split_and!; [by destruct dt|done..].
  - subst w1. simpl. by eapply heap_insert_lookup.
  - by subst w1.
  - done.
Qed.

(** C2. When a call [getDetails(k)] has returned and the entry the cache
    then has for [k] is not older than the TTL when the next call
    [getDetails(k)] starts, [pause] ticks later, that second call is served
    from the cache: it sends no request and returns the same record. The
    two calls together send at most one request. *)
Theorem second_call_served_from_cache (net1 net2 : network) (k : LookupKey)
    (w w1 : world) (dt : Details) (pause : N) :
  getDetails json_loads python_major net1 k w = (inr dt, w1) →
  (∀ e, Cache.lookup (cache (self w1)) (clock w1) k = Some e →
        (clock w1 + pause ≤ Cache.e_stamp e + Cache.ttl (cache (self w1)))%N) →
  ∃ w2, (sleep pause ;; getDetails json_loads python_major net2 k) w1 = (inr dt, w2) ∧
        sent w2 = sent w1 ∧
        length (sent w2) ≤ S (length (sent w)).
Proof.
  intros Hfirst Hfresh.
  pose proof (getDetails_sent _ _ _ _ _ Hfirst) as Hsent.
  destruct (getDetails_again net1 net2 _ _ _ _ _ Hfirst Hfresh) as (w2 & Hrun & Hs & _).
  exists w2. split_and!; [done..|].
  rewrite Hs, Hsent, length_app. repeat case_match; simpl; lia.
Qed.


End HandlerFacts.

(** ** Construction *)

Section InitFacts.
Variable json_loads : string → option value.
Variable files : string → option string.
Variable os_path_join : string → string → string.
Variable package_dir : string.

(** C7, as the code has it. Construction fails, before any lookup, when
    the country file cannot be opened or is not valid JSON: the error of
    [open] (an [IOError]) or of [json.loads] (a [JSONDecodeError]) leaves
    the constructor as it is, and no handler is made. *)
Theorem init_fails_fast (token : option string) (kw : kwargs) :
  let path := country_path os_path_join package_dir (countries_file kw) in
  (files path = None →
   __init__ json_loads files os_path_join package_dir token kw = inl IOError) ∧
  (∀ txt, files path = Some txt → json_loads txt = None →
   __init__ json_loads files os_path_join package_dir token kw = inl JSONDecodeError).
Proof.
  unfold __init__, _read_country_names. simpl. split.
  - by intros ->.
  - by intros txt -> ->.
Qed.

End InitFacts.


(** * The properties on the concrete platform *)



Lemma second_call_served_from_cache_witness :
  Demo.getDetails Demo.net_us Demo.key Demo.world0 = (inr (MkDetails 0), Demo.world1) ∧
  ∃ w2, (sleep 3600 ;; Demo.getDetails (Demo.answer 500 "") Demo.key) Demo.world1
          = (inr (MkDetails 0), w2) ∧
        sent w2 = sent Demo.world1 ∧
        length (sent w2) ≤ S (length (sent Demo.world0)).
Proof.
  assert (Demo.getDetails Demo.net_us Demo.key Demo.world0
          = (inr (MkDetails 0), Demo.world1)) as H by (vm_compute; reflexivity).
  split; [exact H|].
  apply (second_call_served_from_cache Demo.json_loads 3 Demo.net_us
           (Demo.answer 500 "") Demo.key Demo.world0 Demo.world1 (MkDetails 0) 3600 H).
  intros e He. vm_compute in He. injection He as <-. vm_compute. discriminate.
Defined.


(** C4 fails as stated: a [loc] that is a number makes [getDetails] raise
    an [AttributeError] in the enrichment, after [_requestDetails] has
    returned; a country that is a list makes it raise a [TypeError]. *)
Lemma enrichment_raises_on_other_types :
  Demo.json_loads Demo.body_num = Some (VDict {[ "loc" := VInt 5 ]}) ∧
  (Demo._requestDetails (Demo.answer 200 Demo.body_num) None Demo.world0).1 = inr 0 ∧
  (Demo.getDetails (Demo.answer 200 Demo.body_num) None Demo.world0).1
    = inl AttributeError ∧
  (enrich 0 (Demo.world_with {[ "loc" := VInt 5 ]})).1 = inl AttributeError ∧
  (enrich 0 (Demo.world_with {[ "country" := VList [] ]})).1 = inl TypeError.
Proof. split_and!; vm_compute; reflexivity. Qed.

Lemma enrich_returns_iff_witness :
  heap (Demo.world_with Demo.raw_us) !! 0 = Some (VDict Demo.raw_us) ∧
  countries (self (Demo.world_with Demo.raw_us)) = VDict Demo.country_table ∧
  ∃ w', enrich 0 (Demo.world_with Demo.raw_us) = (inr tt, w').
Proof.
  split_and!; [reflexivity..|].
  apply (proj1 (enrich_returns_iff 0 (Demo.world_with Demo.raw_us) Demo.raw_us
                  Demo.country_table eq_refl eq_refl)).
  split; [reflexivity|]. right. by exists "37.751,-97.822".
Defined.

Lemma quota_exceeded_not_cached_witness :
  Cache.contains (cache (self Demo.world0)) (clock Demo.world0) Demo.key = false ∧
  call_binds (request_options (self Demo.world0)) = true ∧
  ∃ w', Demo.getDetails (Demo.answer 429 "") Demo.key Demo.world0
          = (inl RequestQuotaExceededError, w') ∧
        cache (self w') = cache (self Demo.world0) ∧
        Cache.contains (cache (self w')) (clock w') Demo.key = false ∧
        sent w' = sent Demo.world0 ++ [outbound 3 (self Demo.world0) Demo.key].
Proof.
  split_and!; [reflexivity..|].
  apply (quota_exceeded_not_cached Demo.json_loads 3 (Demo.answer 429 "") Demo.key
           Demo.world0 0 (Response 429 "")); reflexivity.
Defined.

(** C6 fails as stated: a response with status 300, which is neither a 2xx
    status nor 429, raises nothing; its body is decoded, cached and
    returned. *)
Lemma redirect_status_is_cached :
  Cache.contains (cache (self Demo.world0)) (clock Demo.world0) Demo.key = false ∧
  ¬ (200 ≤ 300 < 300)%Z ∧ 300%Z ≠ 429%Z ∧
  (Demo.getDetails (Demo.answer 300 Demo.body_us) Demo.key Demo.world0).1
    = inr (MkDetails 0) ∧
  cached_value (Demo.getDetails (Demo.answer 300 Demo.body_us) Demo.key Demo.world0).2
    Demo.key = Some (VDict Demo.enriched_us).
Proof. split_and!; try (vm_compute; reflexivity); lia. Qed.

Lemma http_error_not_cached_witness :
  Cache.contains (cache (self Demo.world0)) (clock Demo.world0) Demo.key = false ∧
  call_binds (request_options (self Demo.world0)) = true ∧
  ∃ w', Demo.getDetails (Demo.answer 404 "Not Found") Demo.key Demo.world0
          = (inl (HTTPError (Response 404 "Not Found")), w') ∧
        cache (self w') = cache (self Demo.world0) ∧
        Cache.contains (cache (self w')) (clock w') Demo.key = false.
Proof.
  split_and!; [reflexivity..|].
  apply (http_error_not_cached Demo.json_loads 3 (Demo.answer 404 "Not Found")
           Demo.key Demo.world0 0 (Response 404 "Not Found"));
    [reflexivity | reflexivity | reflexivity | simpl; lia | discriminate].
Defined.

(** C7 fails as stated: the exception that leaves the constructor is the
    one of [open] or of [json.loads], and neither is a
    [ConfigurationError]. *)
Lemma init_raises_no_configuration_error :
  Demo.files "/missing.json" = None ∧
  Demo.__init__ None (Kwargs (Some "/missing.json") None None None) = inl IOError ∧
  exn_name IOError ≠ "ConfigurationError" ∧
  Demo.files "/tmp/broken.json" = Some "{" ∧
  Demo.json_loads "{" = None ∧
  Demo.__init__ None (Kwargs (Some "/tmp/broken.json") None None None)
    = inl JSONDecodeError ∧
  exn_name JSONDecodeError ≠ "ConfigurationError".
Proof. split_and!; try (vm_compute; reflexivity); done. Qed.

Lemma init_fails_fast_witness :
  Demo.files "/missing.json" = None ∧
  Demo.__init__ None (Kwargs (Some "/missing.json") None None None) = inl IOError ∧
  Demo.files "/tmp/broken.json" = Some "{" ∧
  Demo.json_loads "{" = None ∧
  Demo.__init__ None (Kwargs (Some "/tmp/broken.json") None None None)
    = inl JSONDecodeError.
Proof.
  split_and!; [reflexivity| |reflexivity|reflexivity|].
  - apply (proj1 (init_fails_fast Demo.json_loads Demo.files Demo.os_path_join
                    Demo.package_dir None (Kwargs (Some "/missing.json") None None None))).
    reflexivity.
  - apply (proj2 (init_fails_fast Demo.json_loads Demo.files Demo.os_path_join
                    Demo.package_dir None (Kwargs (Some "/tmp/broken.json") None None None))
             "{"); reflexivity.
Defined.

Lemma outbound_headers_witness :
  let rq := outbound 3 (self Demo.world_token) Demo.key in
  sent (Demo.getDetails Demo.net_us Demo.key Demo.world_token).2
    = sent Demo.world_token ++ [rq] ∧
  headers rq !! "user-agent" = Some "IPinfoClient/Python3/2.0.0" ∧
  headers rq !! "accept" = Some "application/json" ∧
  headers rq !! "authorization" = Some "Bearer secret".
Proof.
  assert (sent (Demo.getDetails Demo.net_us Demo.key Demo.world_token).2
          = sent Demo.world_token ++ [outbound 3 (self Demo.world_token) Demo.key]) as H
    by (vm_compute; reflexivity).
  split; [exact H|].
  apply (outbound_headers Demo.json_loads 3 Demo.net_us Demo.key Demo.world_token
           (Demo.getDetails Demo.net_us Demo.key Demo.world_token).2
           (Demo.getDetails Demo.net_us Demo.key Demo.world_token).1
           [outbound 3 (self Demo.world_token) Demo.key]
           (outbound 3 (self Demo.world_token) Demo.key)).
  - unfold Demo.getDetails. by destruct (getDetails _ _ _ _ _).
  - exact H.
  - apply list_elem_of_singleton. reflexivity.
Defined.

Lemma details_have_derived_keys_witness :
  Demo.getDetails Demo.net_us Demo.key Demo.world0 = (inr (MkDetails 0), Demo.world1) ∧
  ∃ (w1 : world) (cs raw d : gmap string value),
    Demo._requestDetails Demo.net_us Demo.key Demo.world0 = (inr 0, w1) ∧
    heap w1 !! 0 = Some (VDict raw) ∧
    countries (self Demo.world0) = VDict cs ∧
    heap Demo.world1 !! 0 = Some (VDict d) ∧
    is_Some (d !! "country_name") ∧
    is_Some (d !! "latitude") ∧
    is_Some (d !! "longitude") ∧
    (∀ key, key ≠ "country_name" → key ≠ "latitude" → key ≠ "longitude" →
            d !! key = raw !! key) ∧
    ((∀ code, raw !! "country" = Some (VStr code) → cs !! code = None) →
     d !! "country_name" = Some VNone) ∧
    ((∀ s lat lon, raw !! "loc" = Some (VStr s) → ¬ lat_comma_lon s lat lon) →
     d !! "latitude" = Some VNone ∧ d !! "longitude" = Some VNone).
Proof.
  assert (Demo.getDetails Demo.net_us Demo.key Demo.world0
          = (inr (MkDetails 0), Demo.world1)) as H by (vm_compute; reflexivity).
  split; [exact H|].
  exact (details_have_derived_keys Demo.json_loads 3 Demo.net_us Demo.key
           Demo.world0 Demo.world1 (MkDetails 0) H).
Defined.

(** * Further properties of the handler *)

(** ** The cache, for the keys a call does not ask for *)

Section CacheOtherKeys.
Import Cache.

(** A key that is absent stays absent in every cache that has the same TTL
    and, for this key, no entries but those of the first. *)
Lemma lookup_None_sub (c c' : DefaultCache) (now now' : N) (k : LookupKey) :
  ttl c' = ttl c →
  (∀ x, In x (entries c') → e_key x = k → In x (entries c)) →
  (now ≤ now')%N →
  lookup c now k = None → lookup c' now' k = None.
Proof.
  intros Httl Hsub Hle Hnone. unfold lookup in *.
  destruct (List.find (holds c' now' k) (entries c')) as [x|] eqn:Hx; [|done].
  apply find_some in Hx as [Hin Hholds].
  unfold holds, has_key, live in Hholds.
  apply andb_prop in Hholds as [Hk Hlive].
  apply bool_decide_eq_true in Hk, Hlive.
  pose proof (find_none _ _ Hnone x (Hsub x Hin Hk)) as Hno.
  unfold holds, has_key, live in Hno.
  rewrite bool_decide_eq_true_2, bool_decide_eq_true_2 in Hno; [done|lia|done].
Qed.

Lemma lookup_None_touch (c : DefaultCache) (now now' : N) (k k' : LookupKey) (e : entry) :
  e_key e = k → k' ≠ k → (now ≤ now')%N →
  lookup c now k' = None → lookup (touch c k e) now' k' = None.
Proof.
  intros Hk Hne. apply lookup_None_sub; [done|].
  intros x [<-|Hin] Hx; [congruence|].
  apply list_elem_of_In, list_elem_of_filter in Hin as [_ Hin].
  by apply list_elem_of_In.
Qed.

Lemma lookup_None_setitem (c : DefaultCache) (now t t' : N) (k k' : LookupKey) (v : ref) :
  k' ≠ k → (t ≤ t')%N →
  lookup c t k' = None → lookup (setitem c now k v) t' k' = None.
Proof.
  intros Hne. apply lookup_None_sub; [done|].
  intros x Hin Hx. apply list_elem_of_In in Hin.
  apply (subseteq_take (N.to_nat (maxsize c))) in Hin.
  apply elem_of_cons in Hin as [->|Hin]; [simpl in Hx; congruence|].
  apply list_elem_of_filter in Hin as [_ Hin]. by apply list_elem_of_In.
Qed.

(** After [cache[k] = v] the only entry of [k] is the new one. *)
Lemma lookup_setitem_inv (c : DefaultCache) (now t : N) (k : LookupKey) (v : ref)
    (e : entry) :
  lookup (setitem c now k v) t k = Some e → e = Entry k v now.
Proof.
  unfold lookup. intros [Hin Hholds]%find_some.
  apply list_elem_of_In in Hin.
  apply (subseteq_take (N.to_nat (maxsize c))) in Hin.
  apply elem_of_cons in Hin as [->|Hin]; [done|].
  apply list_elem_of_filter in Hin as [Hf _].
  unfold holds in Hholds. apply andb_prop in Hholds as [Hk _].
  rewrite Hk in Hf. done.
Qed.

End CacheOtherKeys.

(** ** Calls that raise, and calls that follow them *)

Section MoreHandlerFacts.
Variable json_loads : string → option value.
Variable python_major : N.

Lemma set_heap_id (w : world) : set_heap (heap w) w = w.
Proof. by destruct w. Qed.

(** Enrichment run again, on any world with the heap it left and the same
    country table, ends as it ended and changes nothing. *)
Lemma enrich_settled (r : ref) (w w' w'' : world) (res : result ()) :
  enrich r w = (res, w') →
  heap w'' = heap w' →
  countries (self w'') = countries (self w) →
  enrich r w'' = (res, w'').
Proof.
  rewrite enrich_eq. intros Hrun Hheap Hcs.
  destruct (heap w !! r) as [v|] eqn:Hr.
  2:{ injection Hrun as <- <-. by rewrite enrich_eq, Hheap, Hr. }
  destruct v as [| | | | | |d];
    try (injection Hrun as <- <-; by rewrite enrich_eq, Hheap, Hr).
  destruct (obj_get _ _) as [e|name] eqn:Hname.
  { injection Hrun as <- <-. by rewrite enrich_eq, Hheap, Hr, Hcs, Hname. }
  destruct (_read_coords _) as [e|[lat lon]] eqn:Hloc; injection Hrun as <- <-.
  - simpl in Hheap.
    assert (heap w'' !! r = Some (VDict (<["country_name" := name]> d))) as Hr'.
    { rewrite Hheap. by eapply heap_insert_lookup. }
    rewrite enrich_eq, Hr', Hcs.
    rewrite !(lookup_insert_ne _ _ "country"), !(lookup_insert_ne _ _ "loc") by done.
    rewrite Hname, Hloc, insert_insert_eq, list_insert_id by done.
    by rewrite set_heap_id.
  - simpl in Hheap. eapply enrich_again.
    + rewrite Hheap. by eapply heap_insert_lookup.
    + by rewrite Hcs.
    + done.
Qed.

(** X10. Whatever the enrichment of a dictionary did, returning or raising
    part of the way, enriching the dictionary once more ends the same way
    and leaves the world as it is. *)
Theorem enrich_outcome_repeats (r : ref) (w w' : world) (res : result ()) :
  enrich r w = (res, w') → enrich r w' = (res, w').
Proof.
  intros Hrun. pose proof (enrich_frame _ _ _ _ Hrun) as (Hself & _).
  eapply enrich_settled; [done..|]. by rewrite Hself.
Qed.



(** X12. On a hit the network plays no part: whatever it would answer, the
    call ends the same way in the same world. *)
Theorem hit_ignores_network (net1 net2 : network) (k : LookupKey) (w : world) :
  Cache.contains (cache (self w)) (clock w) k = true →
  getDetails json_loads python_major net1 k w
  = getDetails json_loads python_major net2 k w.
Proof.
  unfold Cache.contains. intros Hhit.
  destruct (Cache.lookup (cache (self w)) (clock w) k) as [e|] eqn:Hl; [|done].
  unfold getDetails. by rewrite !bind_eq, !(requestDetails_hit _ _ _ _ _ _ Hl).
Qed.

(** X4. However a call ends, it sends no request on a hit. On a miss it
    sends exactly one when the request options can be passed along with
    the call (none is named [url] or [headers]): a GET of
    [https://ipinfo.io] when no address or the empty address is given, of
    [https://ipinfo.io/<address>] otherwise, with the headers and the
    request options of the handler. On a miss with request options that
    name [url] or [headers] the call raises a [TypeError]: nothing is sent
    and nothing changes. *)
Theorem one_request_per_miss (net : network) (k : LookupKey) (w w' : world)
    (res : result Details) :
  getDetails json_loads python_major net k w = (res, w') →
  sent w' = sent w ++
    (if Cache.contains (cache (self w)) (clock w) k then []
     else if call_binds (request_options (self w)) then
       [Request
          (match k with
           | Some ip => if decide (ip = "") then "https://ipinfo.io"
                        else "https://ipinfo.io/" +:+ ip
           | None => "https://ipinfo.io"
           end)
          (_get_headers python_major (self w))
          (request_options (self w))]
     else []) ∧
  (Cache.contains (cache (self w)) (clock w) k = false →
   call_binds (request_options (self w)) = false →
   res = inl TypeError ∧ w' = w).
Proof.
  intros Hrun. split.
  - apply getDetails_sent in Hrun as ->. f_equal.
    destruct (Cache.contains _ _ _); [done|].
    destruct (call_binds _); [|done].
    unfold outbound, request_url. by destruct k as [[|c ip]|].
  - unfold Cache.contains. intros Hmiss Hb.
    destruct (Cache.lookup (cache (self w)) (clock w) k) eqn:Hl; [done|].
    revert Hrun. unfold getDetails.
    rewrite bind_eq, (requestDetails_unbound _ _ _ _ _ Hl Hb). by intros [= <- <-].
Qed.

(** X5. When the key is not cached, the call of [requests.get] has bound
    its arguments and [requests.get] itself raises (no connection, a
    timeout), the exception leaves [getDetails] as it is; the cache and the
    heap are untouched. *)
Theorem transport_error_propagates (net : network) (k : LookupKey) (w : world)
    (elapsed : N) (e : exn) :
  Cache.contains (cache (self w)) (clock w) k = false →
  call_binds (request_options (self w)) = true →
  net (outbound python_major (self w) k) = (elapsed, inl e) →
  getDetails json_loads python_major net k w
  = (inl e, World (self w) (heap w) (clock w + elapsed)
                  (sent w ++ [outbound python_major (self w) k])).
Proof.
  unfold Cache.contains. intros Hmiss Hb Hnet.
  destruct (Cache.lookup (cache (self w)) (clock w) k) eqn:Hl; [done|].
  unfold getDetails. rewrite bind_eq, (requestDetails_miss _ _ _ _ _ Hl Hb). simpl.
  by rewrite Hnet.
Qed.

(** X6. When the key is not cached and the call of [requests.get]
    delivers an answer that has a status that is not
    an error but a body that is not JSON, [getDetails] raises the error of
    the decoder; nothing is cached and the heap is untouched. *)
Theorem undecodable_body_not_cached (net : network) (k : LookupKey) (w : world)
    (elapsed : N) (resp : response) :
  Cache.contains (cache (self w)) (clock w) k = false →
  call_binds (request_options (self w)) = true →
  net (outbound python_major (self w) k) = (elapsed, inr resp) →
  status_code resp ≠ 429%Z →
  ¬ (400 ≤ status_code resp < 600)%Z →
  json_loads (text resp) = None →
  getDetails json_loads python_major net k w
  = (inl JSONDecodeError,
     World (self w) (heap w) (clock w + elapsed)
           (sent w ++ [outbound python_major (self w) k])).
Proof.
  unfold Cache.contains. intros Hmiss Hb Hnet H429 Herr Hjson.
  destruct (Cache.lookup (cache (self w)) (clock w) k) eqn:Hl; [done|].
  unfold getDetails. rewrite bind_eq, (requestDetails_miss _ _ _ _ _ Hl Hb). simpl.
  rewrite Hnet. simpl. rewrite !bool_decide_eq_false_2 by done. by rewrite Hjson.
Qed.

(** [_requestDetails] for one key brings no other key into the cache. *)
Lemma requestDetails_other_key (net : network) (k k' : LookupKey) (w w1 : world)
    (res : result ref) (t : N) :
  k' ≠ k → (clock w ≤ t)%N →
  Cache.lookup (cache (self w)) (clock w) k' = None →
  _requestDetails json_loads python_major net k w = (res, w1) →
  Cache.lookup (cache (self w1)) t k' = None.
Proof.
  intros Hne Hle Hnone.
  destruct (Cache.lookup (cache (self w)) (clock w) k) as [e|] eqn:Hl.
  - rewrite (requestDetails_hit _ _ _ _ _ _ Hl), cache_getitem_eq, Hl.
    intros [= <- <-]. simpl. apply lookup_holds in Hl as [Hk _].
    by apply (lookup_None_touch _ (clock w)).
  - destruct (call_binds (request_options (self w))) eqn:Hb.
    2:{ rewrite (requestDetails_unbound _ _ _ _ _ Hl Hb). intros [= <- <-].
        by apply (lookup_None_later _ (clock w)). }
    rewrite (requestDetails_miss _ _ _ _ _ Hl Hb). simpl.
    repeat case_match;
      try (intros [= <- <-]; simpl; by apply (lookup_None_later _ (clock w))).
    rewrite cache_getitem_eq. case_match eqn:Hl'; intros [= <- <-]; simpl in *.
    + apply lookup_holds in Hl' as [Hk _].
      apply (lookup_None_touch _ t); [done..|].
      by apply (lookup_None_setitem _ _ (clock w)).
    + by apply (lookup_None_setitem _ _ (clock w)).
Qed.

(** X7. A call for one key never brings another key into the cache: a key
    that is absent when [getDetails(k)] starts is still absent after it,
    and at any later time, however the call ends. In particular [None] and
    the empty address, which are fetched from the same URL, are two keys. *)
Theorem other_keys_stay_absent (net : network) (k k' : LookupKey) (w w' : world)
    (res : result Details) (t : N) :
  k' ≠ k →
  Cache.contains (cache (self w)) (clock w) k' = false →
  getDetails json_loads python_major net k w = (res, w') →
  (clock w ≤ t)%N →
  Cache.contains (cache (self w')) t k' = false.
Proof.
  unfold Cache.contains. intros Hne Habsent Hrun Hle.
  destruct (Cache.lookup (cache (self w)) (clock w) k') eqn:Hnone; [done|].
  cut (Cache.lookup (cache (self w')) t k' = None); [by intros ->|].
  revert Hrun. unfold getDetails. rewrite bind_eq.
  destruct (_requestDetails _ _ _ _ _) as [[e|r] w1] eqn:Hreq.
  - intros [= <- <-]. by eapply requestDetails_other_key.
  - rewrite bind_eq. destruct (enrich r w1) as [res' w2] eqn:He.
    apply enrich_frame in He as (Hself & _).
    assert (Cache.lookup (cache (self w2)) t k' = None)
      by (rewrite Hself; by eapply requestDetails_other_key).
    by destruct res'; intros [= <- <-].
Qed.

(** The heap after [_requestDetails]: the objects that were there are
    there, and the object returned is the one the key was cached with or a
    new one. *)
Lemma requestDetails_heap (net : network) (k : LookupKey) (w w1 : world)
    (res : result ref) :
  _requestDetails json_loads python_major net k w = (res, w1) →
  (∀ r v, heap w !! r = Some v → heap w1 !! r = Some v) ∧
  (∀ r1, res = inr r1 →
         Cache.value_of (cache (self w)) (clock w) k = Some r1 ∨
         r1 = length (heap w)).
Proof.
  unfold Cache.value_of.
  destruct (Cache.lookup (cache (self w)) (clock w) k) as [e|] eqn:Hl.
  - rewrite (requestDetails_hit _ _ _ _ _ _ Hl), cache_getitem_eq, Hl.
    intros [= <- <-]. split; [done|]. intros r1 [= <-]. by left.
  - destruct (call_binds (request_options (self w))) eqn:Hb;
      [|rewrite (requestDetails_unbound _ _ _ _ _ Hl Hb); by intros [= <- <-]].
    rewrite (requestDetails_miss _ _ _ _ _ Hl Hb). simpl.
    repeat case_match; try (intros [= <- <-]; by split).
    rewrite cache_getitem_eq. case_match eqn:Hl'; intros [= <- <-]; simpl in *.
    + split; [intros r0 v0 Hr; by apply lookup_app_l_Some|].
      intros r1 [= <-]. right. by apply lookup_setitem_inv in Hl' as ->.
    + split; [intros r0 v0 Hr; by apply lookup_app_l_Some|done].
Qed.

(** X8. A call changes no object but the record of its own key: every
    object on the heap other than the one the key is cached with is after
    the call what it was before, however the call ends. Records handed out
    for other keys are never modified. *)
Theorem other_records_untouched (net : network) (k : LookupKey) (w w' : world)
    (res : result Details) (r : ref) (v : value) :
  getDetails json_loads python_major net k w = (res, w') →
  heap w !! r = Some v →
  Cache.value_of (cache (self w)) (clock w) k ≠ Some r →
  heap w' !! r = Some v.
Proof.
  unfold getDetails. rewrite bind_eq. intros Hrun Hr Hother.
  destruct (_requestDetails _ _ _ _ _) as [[e|r1] w1] eqn:Hreq.
  - injection Hrun as <- <-. by apply (requestDetails_heap _ _ _ _ _ Hreq).
  - destruct (requestDetails_heap _ _ _ _ _ Hreq) as [Hkeep Hnew].
    rewrite bind_eq in Hrun. destruct (enrich r1 w1) as [res' w2] eqn:He.
    apply enrich_frame in He as (_ & _ & _ & Hframe).
    assert (r ≠ r1) as Hne.
    { destruct (Hnew r1 eq_refl) as [Hc| ->]; [congruence|].
      apply lookup_lt_Some in Hr. lia. }
    assert (heap w2 !! r = Some v) by (rewrite Hframe by done; by apply Hkeep).
    by destruct res'; injection Hrun as <- <-.
Qed.

(** X9. A miss that is answered well returns: when the key is not cached,
    the call of [requests.get] delivers a response,
    the status is neither 429 nor from 400 to 599, the body decodes to a
    JSON object whose country the table can look up and whose [loc]
    [_read_coords] accepts, and the cache has room, [getDetails] returns a
    new record, which is the raw object with the three derived keys set,
    and the cache maps the key to it. *)
Theorem miss_returns_new_record (net : network) (k : LookupKey) (w : world)
    (elapsed : N) (resp : response) (raw cs : gmap string value)
    (name lat lon : value) :
  Cache.contains (cache (self w)) (clock w) k = false →
  call_binds (request_options (self w)) = true →
  net (outbound python_major (self w) k) = (elapsed, inr resp) →
  status_code resp ≠ 429%Z →
  ¬ (400 ≤ status_code resp < 600)%Z →
  json_loads (text resp) = Some (VDict raw) →
  (0 < Cache.maxsize (cache (self w)))%N →
  countries (self w) = VDict cs →
  dict_get cs (default VNone (raw !! "country")) = inr name →
  _read_coords (default VNone (raw !! "loc")) = inr (lat, lon) →
  ∃ w', getDetails json_loads python_major net k w
          = (inr (MkDetails (length (heap w))), w') ∧
        heap w !! length (heap w) = None ∧
        heap w' !! length (heap w)
          = Some (VDict (<["longitude" := lon]>
                        (<["latitude" := lat]>
                        (<["country_name" := name]> raw)))) ∧
        Cache.value_of (cache (self w')) (clock w') k = Some (length (heap w)) ∧
        clock w' = (clock w + elapsed)%N.
Proof.
  unfold Cache.contains. intros Hmiss Hb Hnet H429 Herr Hjson Hroom Hcs Hname Hloc.
  destruct (Cache.lookup (cache (self w)) (clock w) k) eqn:Hl; [done|].
  unfold getDetails. rewrite bind_eq, (requestDetails_miss _ _ _ _ _ Hl Hb). simpl.
  rewrite Hnet. simpl. rewrite !bool_decide_eq_false_2 by done.
  rewrite Hjson, cache_getitem_eq. simpl.
  rewrite lookup_setitem by (simpl; first [done | lia]). simpl.
  rewrite bind_eq, enrich_eq. simpl.
  rewrite lookup_app_r, Nat.sub_diag by done. simpl.
  rewrite Hcs. simpl. rewrite Hname, Hloc.
  eexists. split_and!; [done| | | |done].
  - by apply lookup_ge_None_2.
  - simpl. apply list_lookup_insert_eq. rewrite length_app. simpl. lia.
  - unfold Cache.value_of. simpl.
    rewrite (lookup_touch _ _ _ _ (Cache.Entry k (length (heap w)) (clock w + elapsed))).
    + by rewrite lookup_setitem by (simpl; first [done | lia]).
    + by rewrite lookup_setitem by (simpl; first [done | lia]).
Qed.

(** X3. A handler whose country table is not a dictionary (the country
    file held valid JSON, but not an object) never returns details: every
    call raises, whatever the key and the network. *)
Theorem table_not_a_dict_never_returns (net : network) (k : LookupKey) (w : world) :
  (∀ cs, countries (self w) ≠ VDict cs) →
  ∃ e w', getDetails json_loads python_major net k w = (inl e, w').
Proof.
  intros Htable.
  destruct (getDetails json_loads python_major net k w) as [[e|dt] w'] eqn:Hrun;
    [eauto|].
  apply getDetails_inv in Hrun as (w1 & Hreq & Henrich).
  apply requestDetails_config in Hreq as (_ & Hcs & _).
  apply enrich_inv in Henrich as (d & name & lat & lon & _ & Hname & _).
  rewrite Hcs in Hname. destruct (countries (self w)) eqn:Hc; try done.
  by destruct (Htable d0).
Qed.

End MoreHandlerFacts.

(** ** Construction, when it succeeds *)

Section MoreInitFacts.
Variable json_loads : string → option value.
Variable files : string → option string.
Variable os_path_join : string → string → string.
Variable package_dir : string.


(** X2. A handler that was constructed always has a [timeout] among its
    request options: the caller's when the caller gave one, 2 otherwise;
    every other option is the caller's. Its cache is the one the caller
    gave, when one was given; without a cache and without cache options it
    is an empty cache for 4096 entries and 86400 ticks. *)
Theorem init_options_and_cache (token : option string) (kw : kwargs) (h : Handler) :
  __init__ json_loads files os_path_join package_dir token kw = inr h →
  let given := default ∅ (kw_request_options kw) in
  request_options h !! "timeout" = Some (default (VInt 2) (given !! "timeout")) ∧
  (∀ key, key ≠ "timeout" → request_options h !! key = given !! key) ∧
  (∀ c, kw_cache kw = Some c → cache h = c) ∧
  (kw_cache kw = None → cache_options kw = None →
   cache h = Cache.Make 4096 86400 []).
Proof.
  unfold __init__. destruct (_read_country_names _ _ _ _ _) as [e|cs]; [done|].
  intros Hinit.
  assert (request_options h
          = (if bool_decide (is_Some (default ∅ (kw_request_options kw) !! "timeout"))
             then default ∅ (kw_request_options kw)
             else <["timeout" := VInt REQUEST_TIMEOUT_DEFAULT]>
                    (default ∅ (kw_request_options kw))) ∧
          (∀ c, kw_cache kw = Some c → cache h = c) ∧
          (kw_cache kw = None → cache_options kw = None →
           cache h = Cache.Make 4096 86400 [])) as (Hopts & Hgiven & Hdefault).
  { destruct (kw_cache kw) as [c|].
    - injection Hinit as <-. simpl. split_and!; [done| |done]. by intros ? [= <-].
    - revert Hinit. case_bool_decide; [done|]. intros [= <-]. simpl.
      split_and!; [done..|]. by intros _ ->. }
  simpl. rewrite Hopts. split_and!; [| |done..].
  - case_bool_decide as Ht.
    + destruct Ht as [v Hv]. by rewrite Hv.
    + rewrite lookup_insert_eq. apply eq_None_not_Some in Ht. by rewrite Ht.
  - intros key Hkey. case_bool_decide; [done|]. by rewrite lookup_insert_ne.
Qed.

End MoreInitFacts.

(** ** The further properties on the concrete platform *)


Lemma init_options_and_cache_witness :
  Demo.__init__ None Scenes.kw_proxy = inr Scenes.handler_proxy ∧
  request_options Scenes.handler_proxy !! "timeout" = Some (VInt 2) ∧
  (∀ key, key ≠ "timeout" →
     request_options Scenes.handler_proxy !! key
     = ({[ "verify" := VBool false ]} : gmap string value) !! key) ∧
  (∀ c, kw_cache Scenes.kw_proxy = Some c → cache Scenes.handler_proxy = c) ∧
  (kw_cache Scenes.kw_proxy = None → cache_options Scenes.kw_proxy = None →
   cache Scenes.handler_proxy = Cache.Make 4096 86400 []).
Proof.
  assert (Demo.__init__ None Scenes.kw_proxy = inr Scenes.handler_proxy) as H
    by (vm_compute; reflexivity).
  split; [exact H|].
  exact (init_options_and_cache Demo.json_loads Demo.files Demo.os_path_join
           Demo.package_dir None Scenes.kw_proxy Scenes.handler_proxy H).
Defined.

Lemma table_not_a_dict_never_returns_witness :
  (∀ cs, countries (self Scenes.world_array_table) ≠ VDict cs) ∧
  ∃ e w', Demo.getDetails Demo.net_us Demo.key Scenes.world_array_table = (inl e, w').
Proof.
  assert (∀ cs, countries (self Scenes.world_array_table) ≠ VDict cs) as H by done.
  split; [exact H|].
  exact (table_not_a_dict_never_returns Demo.json_loads 3 Demo.net_us Demo.key
           Scenes.world_array_table H).
Defined.

Lemma one_request_per_miss_witness :
  Demo.getDetails Demo.net_us None Demo.world0
    = (inr (MkDetails 0), (Demo.getDetails Demo.net_us None Demo.world0).2) ∧
  sent (Demo.getDetails Demo.net_us None Demo.world0).2
    = [Request "https://ipinfo.io" (_get_headers 3 Demo.handler)
               {[ "timeout" := VInt 2 ]}] ∧
  Demo.getDetails Demo.net_us None Scenes.world_headers
    = (inl TypeError, Scenes.world_headers).
Proof.
  assert (Demo.getDetails Demo.net_us None Demo.world0
          = (inr (MkDetails 0), (Demo.getDetails Demo.net_us None Demo.world0).2)) as H
    by (vm_compute; reflexivity).
  split_and!; [exact H| |].
  - exact (proj1 (one_request_per_miss Demo.json_loads 3 Demo.net_us None
                    Demo.world0 _ _ H)).
  - destruct (Demo.getDetails Demo.net_us None Scenes.world_headers) as [res w'] eqn:Hrun.
    destruct (proj2 (one_request_per_miss Demo.json_loads 3 Demo.net_us None
                       Scenes.world_headers w' res Hrun)) as [-> ->];
      [vm_compute; reflexivity..|reflexivity].
Defined.

Lemma transport_error_propagates_witness :
  Cache.contains (cache (self Demo.world0)) (clock Demo.world0) Demo.key = false ∧
  call_binds (request_options (self Demo.world0)) = true ∧
  Demo.getDetails Scenes.down Demo.key Demo.world0
  = (inl (TransportError "ConnectionError"),
     World Demo.handler [] 2 [outbound 3 Demo.handler Demo.key]).
Proof.
  split_and!; [reflexivity..|].
  exact (transport_error_propagates Demo.json_loads 3 Scenes.down Demo.key Demo.world0
           2 (TransportError "ConnectionError") eq_refl eq_refl eq_refl).
Defined.

Lemma undecodable_body_not_cached_witness :
  Demo.json_loads "<html>" = None ∧
  call_binds (request_options (self Demo.world0)) = true ∧
  Demo.getDetails (Demo.answer 200 "<html>") Demo.key Demo.world0
  = (inl JSONDecodeError,
     World Demo.handler [] 0 [outbound 3 Demo.handler Demo.key]).
Proof.
  split_and!; [reflexivity..|].
  apply (undecodable_body_not_cached Demo.json_loads 3 (Demo.answer 200 "<html>")
           Demo.key Demo.world0 0 (Response 200 "<html>"));
    [reflexivity | reflexivity | reflexivity | discriminate | simpl; lia | reflexivity].
Defined.

Lemma other_keys_stay_absent_witness :
  Some "" ≠ (None : LookupKey) ∧
  Cache.contains (cache (self Demo.world0)) (clock Demo.world0) (Some "") = false ∧
  Cache.contains (cache (self (Demo.getDetails Demo.net_us None Demo.world0).2)) 5
                 (Some "") = false.
Proof.
  split_and!; [done|reflexivity|].
  apply (other_keys_stay_absent Demo.json_loads 3 Demo.net_us None (Some "")
           Demo.world0 (Demo.getDetails Demo.net_us None Demo.world0).2
           (Demo.getDetails Demo.net_us None Demo.world0).1 5);
    [done | reflexivity | | simpl; lia].
  unfold Demo.getDetails. by destruct (getDetails _ _ _ _ _).
Defined.

Lemma other_records_untouched_witness :
  heap Demo.world1 !! 0 = Some (VDict Demo.enriched_us) ∧
  Cache.value_of (cache (self Demo.world1)) (clock Demo.world1) None ≠ Some 0 ∧
  heap (Demo.getDetails Demo.net_us None Demo.world1).2 !! 0
    = Some (VDict Demo.enriched_us).
Proof.
  assert (heap Demo.world1 !! 0 = Some (VDict Demo.enriched_us)) as H
    by (vm_compute; reflexivity).
  assert (Cache.value_of (cache (self Demo.world1)) (clock Demo.world1) None ≠ Some 0)
    as Hother by (vm_compute; discriminate).
  split_and!; [exact H | exact Hother |].
  apply (other_records_untouched Demo.json_loads 3 Demo.net_us None Demo.world1
           (Demo.getDetails Demo.net_us None Demo.world1).2
           (Demo.getDetails Demo.net_us None Demo.world1).1 0
           (VDict Demo.enriched_us)); [|exact H|exact Hother].
  unfold Demo.getDetails. by destruct (getDetails _ _ _ _ _).
Defined.

Lemma miss_returns_new_record_witness :
  Cache.contains (cache (self Demo.world0)) (clock Demo.world0) Demo.key = false ∧
  call_binds (request_options (self Demo.world0)) = true ∧
  ∃ w', Demo.getDetails Demo.net_us Demo.key Demo.world0 = (inr (MkDetails 0), w') ∧
        heap Demo.world0 !! 0 = None ∧
        heap w' !! 0 = Some (VDict Demo.enriched_us) ∧
        Cache.value_of (cache (self w')) (clock w') Demo.key = Some 0 ∧
        clock w' = 0%N.
Proof.
  split_and!; [reflexivity..|].
  apply (miss_returns_new_record Demo.json_loads 3 Demo.net_us Demo.key Demo.world0
           0 (Response 200 Demo.body_us) Demo.raw_us Demo.country_table
           (VStr "United States") (VStr "37.751") (VStr "-97.822"));
    [reflexivity | reflexivity | reflexivity | discriminate | simpl; lia | vm_compute; reflexivity
    | reflexivity | reflexivity | vm_compute; reflexivity | vm_compute; reflexivity].
Defined.

Lemma enrich_outcome_repeats_witness :
  enrich 0 (Demo.world_with Demo.raw_num)
    = (inl AttributeError, (enrich 0 (Demo.world_with Demo.raw_num)).2) ∧
  enrich 0 (enrich 0 (Demo.world_with Demo.raw_num)).2
    = (inl AttributeError, (enrich 0 (Demo.world_with Demo.raw_num)).2).
Proof.
  assert (enrich 0 (Demo.world_with Demo.raw_num)
          = (inl AttributeError, (enrich 0 (Demo.world_with Demo.raw_num)).2)) as H
    by (vm_compute; reflexivity).
  split; [exact H|].
  exact (enrich_outcome_repeats 0 _ _ _ H).
Defined.


Lemma hit_ignores_network_witness :
  Cache.contains (cache (self Demo.world1)) (clock Demo.world1) Demo.key = true ∧
  Demo.getDetails Scenes.down Demo.key Demo.world1
  = Demo.getDetails Demo.net_us Demo.key Demo.world1.
Proof.
  assert (Cache.contains (cache (self Demo.world1)) (clock Demo.world1) Demo.key = true)
    as H by (vm_compute; reflexivity).
  split; [exact H|].
  exact (hit_ignores_network Demo.json_loads 3 Scenes.down Demo.net_us Demo.key
           Demo.world1 H).
Defined.
